(** * evaluator_result_parser: extraction of evaluation logs and detection metrics

    A shallow embedding of [analiys_jsonl_res.py] (class [ObjectExtractor])
    and of [test_canvas.py] (class [DatasetManager]), and the properties
    of the natural-language specification checked against them.

    Conventions of the embedding.
    - A Python object is a [value]; a Python [dict] is an association
      list in insertion order, read by its first binding of a key.
    - A raised exception is the [Raise] result of the [res] monad.
    - A Python [float] is an exact rational ([Qc]) or one of the special
      values inf, -inf, nan: binary64 rounding of a result, its overflow
      to inf and the sign of zero are not modelled; the [OverflowError] of
      an [int] too large to become a float is.  A [str] is a sequence of
      code points below 256; case mapping is the ASCII one. *)

From Stdlib Require Import ZArith QArith Qcanon Qround String Ascii List.
From stdpp Require Import base option list strings gmap sorting numbers.

Open Scope string_scope.
Open Scope list_scope.
Set Warnings "-register-all".

(** ** Python objects and exceptions *)

Module Py.

Inductive exn := AttributeError | TypeError | KeyError | ValueError | OverflowError.

Inductive res (A : Type) :=
  | Ok (a : A)
  | Raise (e : exn).
Arguments Ok {A} a.
Arguments Raise {A} e.

Definition bind {A B} (m : res A) (k : A → res B) : res B :=
  match m with
  | Ok a => k a
  | Raise e => Raise e
  end.

#[global] Instance res_ret : MRet res := @Ok.
#[global] Instance res_bind : MBind res := λ A B k m, bind m k.

(** A [for] loop that threads an accumulator and stops at the first exception. *)
Fixpoint foldM {A B} (body : A → B → res A) (acc : A) (l : list B) : res A :=
  match l with
  | [] => Ok acc
  | x :: l' => acc' ← body acc x; foldM body acc' l'
  end.

(** The elements of a list without repetition, in order of first occurrence. *)
Fixpoint unique_go `{EqDecision A} (seen l : list A) : list A :=
  match l with
  | [] => []
  | x :: l' =>
      if decide (x ∈ seen) then unique_go seen l' else x :: unique_go (x :: seen) l'
  end.
Definition unique `{EqDecision A} (l : list A) : list A := unique_go [] l.

Inductive pyfloat :=
  | FFin (q : Qc)
  | FInf (negative : bool)
  | FNaN.

Inductive value :=
  | VNone
  | VBool (b : bool)
  | VInt (n : Z)
  | VFloat (f : pyfloat)
  | VStr (s : string)
  | VList (l : list value)
  | VDict (d : list (string * value)).

Abbreviation dict := (list (string * value)).

(** [d.get(key)] on the bindings of a dict: [None] of Rocq when the key is absent. *)
Fixpoint dict_lookup {A} (key : string) (d : list (string * A)) : option A :=
  match d with
  | [] => None
  | (k, v) :: d' => if String.eqb k key then Some v else dict_lookup key d'
  end.

Definition keys {A} (d : list (string * A)) : list string := d.*1.

(** [obj.get(key, default)]: only a dict has the method. *)
Definition get (obj : value) (key : string) (default : value) : res value :=
  match obj with
  | VDict d => Ok (from_option id default (dict_lookup key d))
  | _ => Raise AttributeError
  end.

Definition float_truthy (f : pyfloat) : bool :=
  match f with
  | FFin q => negb (bool_decide (q = 0%Qc))
  | _ => true
  end.

(** [bool(v)], as used by [if not v] and [if v and ...]. *)
Definition truthy (v : value) : bool :=
  match v with
  | VNone => false
  | VBool b => b
  | VInt n => negb (n =? 0)%Z
  | VFloat f => float_truthy f
  | VStr s => negb (String.eqb s "")
  | VList l => match l with [] => false | _ => true end
  | VDict d => match d with [] => false | _ => true end
  end.

Definition is_str (v : value) : bool := match v with VStr _ => true | _ => false end.
Definition is_list (v : value) : bool := match v with VList _ => true | _ => false end.
Definition is_dict (v : value) : bool := match v with VDict _ => true | _ => false end.

(** [for x in v]: the items a [for] loop visits. *)
Definition iter (v : value) : res (list value) :=
  match v with
  | VList l => Ok l
  | VDict d => Ok (VStr <$> keys d)
  | VStr s => Ok ((λ c, VStr (String c "")) <$> list_ascii_of_string s)
  | _ => Raise TypeError
  end.

(** *** Float arithmetic *)

Definition float_of_Z (n : Z) : pyfloat := FFin (Qc_of_Z n).

Definition Qc_sign_neg (q : Qc) : bool := bool_decide (q < 0)%Qc.

Definition fmul (a b : pyfloat) : pyfloat :=
  match a, b with
  | FNaN, _ | _, FNaN => FNaN
  | FFin x, FFin y => FFin (x * y)
  | FInf s, FInf t => FInf (xorb s t)
  | FInf s, FFin y | FFin y, FInf s =>
      if bool_decide (y = 0%Qc) then FNaN else FInf (xorb s (Qc_sign_neg y))
  end.

Definition fadd (a b : pyfloat) : pyfloat :=
  match a, b with
  | FNaN, _ | _, FNaN => FNaN
  | FFin x, FFin y => FFin (x + y)
  | FInf s, FInf t => if Bool.eqb s t then FInf s else FNaN
  | FInf s, FFin _ | FFin _, FInf s => FInf s
  end.

(** The least magnitude of an [int] that does not convert to a float: halfway
    between the largest binary64 number and 2^1024, where rounding goes up. *)
Definition int_float_bound : Z := 2 ^ 1024 - 2 ^ 970.

(** The numeric operand of [+] and [*] as a float; [bool] is an [int], and
    an [int] too large raises "int too large to convert to float". *)
Definition as_float (v : value) : res pyfloat :=
  match v with
  | VBool b => Ok (float_of_Z (if b then 1 else 0))
  | VInt n =>
      if (Z.abs n <? int_float_bound)%Z then Ok (float_of_Z n) else Raise OverflowError
  | VFloat f => Ok f
  | _ => Raise TypeError
  end.

(** [v * f] and [v + f] for a float right operand [f]. *)
Definition mul_float (v : value) (f : pyfloat) : res pyfloat :=
  x ← as_float v; Ok (fmul x f).
Definition add_float (v : value) (f : pyfloat) : res pyfloat :=
  x ← as_float v; Ok (fadd x f).

(** The literal [1e-9]. *)
Definition f1e_9 : pyfloat := FFin (Q2Qc (1 # 1000000000)).

(** *** String methods *)

Definition lower_ascii (c : ascii) : ascii :=
  let n := nat_of_ascii c in
  if (65 <=? n)%nat && (n <=? 90)%nat then ascii_of_nat (n + 32) else c.

(** [s.lower()] *)
Fixpoint lower (s : string) : string :=
  match s with
  | "" => ""
  | String c s' => String (lower_ascii c) (lower s')
  end.

(** [s.replace(c, "")] for a one-character [c]. *)
Fixpoint remove_char (c : ascii) (s : string) : string :=
  match s with
  | "" => ""
  | String a s' => if Ascii.eqb a c then remove_char c s' else String a (remove_char c s')
  end.

(** [s.split(c)] for a one-character separator: one more piece than separators. *)
Fixpoint split_go (c : ascii) (cur : string) (s : string) : list string :=
  match s with
  | "" => [String.rev cur]
  | String a s' =>
      if Ascii.eqb a c then String.rev cur :: split_go c "" s'
      else split_go c (String a cur) s'
  end.
Definition split (c : ascii) (s : string) : list string := split_go c "" s.

(** *** [float(s)] on a string *)

(** The blanks that [float] strips: the ASCII ones (tab to carriage return,
    and the space) and, of the code points from 128 on, those that are
    spaces, U+0085 and U+00A0.  The separators U+001C to U+001F are not. *)
Definition is_space (c : ascii) : bool :=
  let n := nat_of_ascii c in
  ((9 <=? n) && (n <=? 13) || (n =? 32) || (n =? 133) || (n =? 160))%nat.

Definition is_digit (c : ascii) : bool :=
  let n := nat_of_ascii c in ((48 <=? n) && (n <=? 57))%nat.

Definition digit_val (c : ascii) : Z := Z.of_nat (nat_of_ascii c) - 48.

Fixpoint lstrip (cs : list ascii) : list ascii :=
  match cs with
  | c :: cs' => if is_space c then lstrip cs' else cs
  | [] => []
  end.
Definition strip (cs : list ascii) : list ascii :=
  rev (lstrip (rev (lstrip cs))).

(** Underscores may only stand between two digits; they are then dropped. *)
Fixpoint drop_underscores (prev : option ascii) (cs : list ascii) : option (list ascii) :=
  match cs with
  | [] => if bool_decide (prev = Some "_"%char) then None else Some []
  | c :: cs' =>
      if Ascii.eqb c "_" then
        if from_option is_digit false prev then drop_underscores (Some c) cs' else None
      else
        if bool_decide (prev = Some "_"%char) && negb (is_digit c) then None
        else cons c <$> drop_underscores (Some c) cs'
  end.

Fixpoint span_digits (cs : list ascii) : list ascii * list ascii :=
  match cs with
  | c :: cs' =>
      if is_digit c then let '(ds, r) := span_digits cs' in (c :: ds, r) else ([], cs)
  | [] => ([], [])
  end.

Definition digits_val (ds : list ascii) : Z :=
  fold_left (λ acc c, 10 * acc + digit_val c)%Z ds 0%Z.

Definition split_sign (cs : list ascii) : bool * list ascii :=
  match cs with
  | "-"%char :: r => (true, r)
  | "+"%char :: r => (false, r)
  | _ => (false, cs)
  end.

(** A decimal literal [digits [. digits] [e [sign] digits]] as mantissa and
    power of ten. *)
Definition parse_decimal (cs : list ascii) : option (Z * Z) :=
  let '(ip, r1) := span_digits cs in
  let '(fp, r2) := match r1 with
                   | "."%char :: r => span_digits r
                   | _ => ([], r1)
                   end in
  match ip ++ fp with
  | [] => None
  | ds =>
      let m := digits_val ds in
      let e := (- Z.of_nat (length fp))%Z in
      match r2 with
      | [] => Some (m, e)
      | c :: r3 =>
          if Ascii.eqb (lower_ascii c) "e" then
            let '(eneg, r4) := split_sign r3 in
            let '(ed, r5) := span_digits r4 in
            match ed, r5 with
            | _ :: _, [] =>
                let x := digits_val ed in
                Some (m, (e + (if eneg then - x else x))%Z)
            | _, _ => None
            end
          else None
      end
  end.

Definition scale10 (m e : Z) : Qc :=
  if (0 <=? e)%Z then Qc_of_Z (m * 10 ^ e)
  else Q2Qc (Qmake m (Z.to_pos (10 ^ (- e)))).

Definition float_of_string (s : string) : res pyfloat :=
  match drop_underscores None (strip (list_ascii_of_string s)) with
  | None => Raise ValueError
  | Some cs =>
      let '(neg, body) := split_sign cs in
      let word := string_of_list_ascii (lower_ascii <$> body) in
      if String.eqb word "inf" || String.eqb word "infinity" then Ok (FInf neg)
      else if String.eqb word "nan" then Ok FNaN
      else match parse_decimal body with
           | Some (m, e) => Ok (FFin (scale10 (if neg then - m else m) e))
           | None => Raise ValueError
           end
  end.

End Py.

(** ** [analiys_jsonl_res.py]: class [ObjectExtractor] *)

Module ObjectExtractor.
Import Py.

Definition convert_to_list (value : value) : res Py.value :=
  if is_str value then
    match value with
    | VStr s =>
        let pieces := split "," (remove_char "]" (remove_char "[" s)) in
        match mapM float_of_string pieces with
        | Ok covs => Ok (VList (VFloat <$> covs))
        | Raise ValueError => Ok (VList [])
        | Raise e => Raise e
        end
    | _ => Ok (VList [])
    end
  else Ok (if is_list value then value else VList []).

Definition safe_get (obj : value) (key : string) (default : value) : res value :=
  if truthy obj && is_dict obj then get obj key default else Ok default.

Definition get_success (obj : value) : res bool :=
  match obj with
  | VNone => Ok false
  | VBool b => Ok b
  | VStr s => Ok (String.eqb (lower s) "true")
  | _ => Raise AttributeError
  end.

Definition parse_ego (frame : value) : res dict :=
  ego ← get frame "Ego" (VDict []);
  transform ← get ego "TransformStamped" (VDict []);
  transform_data ← get transform "transform" (VDict []);
  header ← get transform "header" (VDict []);
  header_stamp ← get header "stamp" (VDict []);
  if negb (truthy header_stamp) then Ok []
  else
    sec ← get header_stamp "sec" VNone;
    nanosec ← get header_stamp "nanosec" (VInt 0);
    nano ← mul_float nanosec f1e_9;
    timestamp ← add_float sec nano;
    translation ← get transform_data "translation" (VDict []);
    rotation ← get transform_data "rotation" (VDict []);
    position_x ← get translation "x" VNone;
    position_y ← get translation "y" VNone;
    position_z ← get translation "z" VNone;
    orientation_x ← get rotation "x" VNone;
    orientation_y ← get rotation "y" VNone;
    orientation_z ← get rotation "z" VNone;
    orientation_w ← get rotation "w" VNone;
    Ok [ ("timestamp", VFloat timestamp);
         ("object_type", VStr "Ego");
         ("position_x", position_x);
         ("position_y", position_y);
         ("position_z", position_z);
         ("orientation_x", orientation_x);
         ("orientation_y", orientation_y);
         ("orientation_z", orientation_z);
         ("orientation_w", orientation_w) ].

(** [ObjectExtractor.safe_get(obj.get(field), axis)] *)
Definition sub_get (obj : value) (field axis : string) : res value :=
  sub ← get obj field VNone; safe_get sub axis VNone.

(** The dict literal appended for one entry of [objects]. *)
Definition object_row (stamp success obj : value) : res dict :=
  status ← get obj "status" (VStr "Unknown");
  object_type ← get obj "object_type" (VStr "Unknown");
  label ← get obj "label" (VStr "");
  distance_from_ego ← get obj "distance_from_ego" VNone;
  position_x ← sub_get obj "position" "x";
  position_y ← sub_get obj "position" "y";
  position_z ← sub_get obj "position" "z";
  velocity_x ← sub_get obj "velocity" "x";
  velocity_y ← sub_get obj "velocity" "y";
  velocity_z ← sub_get obj "velocity" "z";
  orientation_x ← sub_get obj "orientation" "x";
  orientation_y ← sub_get obj "orientation" "y";
  orientation_z ← sub_get obj "orientation" "z";
  orientation_w ← sub_get obj "orientation" "w";
  pose_error_x ← sub_get obj "pose_error" "x";
  pose_error_y ← sub_get obj "pose_error" "y";
  pose_error_z ← sub_get obj "pose_error" "z";
  heading_error_z ← sub_get obj "heading_error" "z";
  velocity_error_x ← sub_get obj "velocity_error" "x";
  velocity_error_y ← sub_get obj "velocity_error" "y";
  bev_error ← get obj "bev_error" VNone;
  pose_cov ← get obj "pose_covariance" (VList []);
  pose_covariance ← convert_to_list pose_cov;
  twist_cov ← get obj "twist_covariance" (VList []);
  twist_covariance ← convert_to_list twist_cov;
  frame_success ← get_success success;
  Ok [ ("timestamp", stamp);
       ("status", status);
       ("object_type", object_type);
       ("label", label);
       ("distance_from_ego", distance_from_ego);
       ("position_x", position_x);
       ("position_y", position_y);
       ("position_z", position_z);
       ("velocity_x", velocity_x);
       ("velocity_y", velocity_y);
       ("velocity_z", velocity_z);
       ("orientation_x", orientation_x);
       ("orientation_y", orientation_y);
       ("orientation_z", orientation_z);
       ("orientation_w", orientation_w);
       ("pose_error_x", pose_error_x);
       ("pose_error_y", pose_error_y);
       ("pose_error_z", pose_error_z);
       ("heading_error_z", heading_error_z);
       ("velocity_error_x", velocity_error_x);
       ("velocity_error_y", velocity_error_y);
       ("bev_error", bev_error);
       ("pose_covariance", pose_covariance);
       ("twist_covariance", twist_covariance);
       ("frame_success", VBool frame_success) ].

(** The body of [for record in data], on the list built so far. *)
Definition extract_record (extracted_objects : list dict) (record : value)
  : res (list dict) :=
  frame ← get record "Frame" (VDict []);
  if negb (truthy frame) then Ok extracted_objects
  else
    result ← get record "Result" (VDict []);
    stamps ← get record "Stamp" (VDict []);
    stamp ← get stamps "ROS" VNone;
    success ← get result "Success" VNone;
    criteria0 ← get frame "criteria0" (VDict []);
    objects ← get criteria0 "Objects" (VList []);
    ego ← parse_ego frame;
    let extracted_objects := extracted_objects ++ [ego] in
    objs ← iter objects;
    foldM (λ acc obj, row ← object_row stamp success obj; Ok (acc ++ [row]))
          extracted_objects objs.

Definition extract_objects (data : list value) : res (list dict) :=
  foldM extract_record [] data.

(** A cell of the table that [pd.DataFrame] builds.  A field that the dict
    lacks is nan, and so is a nan of the dict.  A [None] of the dict is
    null: pandas keeps it as [None] in a column of objects and turns it into
    nan in a column of numbers.  Any other value is held, a number possibly
    as a float. *)
Inductive table_cell :=
  | Nan
  | Null
  | Held (v : value).

Definition cell_of_value (v : value) : table_cell :=
  match v with
  | VNone => Null
  | VFloat FNaN => Nan
  | _ => Held v
  end.

(** [pd.DataFrame(objects)] on a list of dicts: the columns are the keys in
    order of first occurrence, and a row has nan where its dict has no key. *)
Record DataFrame := { columns : list string; rows : list (list (string * table_cell)) }.

Definition DataFrame_of_dicts (objects : list dict) : DataFrame :=
  let cols := unique (concat (keys <$> objects)) in
  {| columns := cols;
     rows := (λ d, (λ c, (c, from_option cell_of_value Nan (dict_lookup c d))) <$> cols)
               <$> objects |}.

(** [ObjectProcessor.process], on the records read from the folder. *)
Definition process (data : list value) : res DataFrame :=
  objects ← extract_objects data; Ok (DataFrame_of_dicts objects).

End ObjectExtractor.

(** ** [test_canvas.py]: class [DatasetManager] *)

Module DatasetManager.
Import Py.

(** A cell of a frame read by [pd.read_csv]: nan for a missing entry, a
    number, a string or a boolean. *)
Inductive cell :=
  | NaN
  | Num (q : Qc)
  | Str (s : string)
  | Bool (b : bool).

#[global] Instance cell_eq_dec : EqDecision cell.
Proof. solve_decision. Defined.

(** A frame: its column labels and its rows, each row a map from column
    label to cell. *)
Record DataFrame := { columns : list string; rows : list (gmap string cell) }.

Definition at_col (c : string) (r : gmap string cell) : cell := default NaN (r !! c).

(** [df[c]] *)
Definition getitem (df : DataFrame) (c : string) : res (list cell) :=
  if decide (c ∈ columns df) then Ok (at_col c <$> rows df) else Raise KeyError.

(** [df[c] = series]: the column is overwritten in place, or added last. *)
Definition setitem (df : DataFrame) (c : string) (series : list cell) : DataFrame :=
  {| columns := if decide (c ∈ columns df) then columns df else columns df ++ [c];
     rows := zip_with (λ r v, <[c := v]> r) (rows df) series |}.

(** [series == x], elementwise; nan equals nothing. *)
Definition cell_eq (v x : cell) : bool :=
  match v, x with
  | NaN, _ | _, NaN => false
  | _, _ => bool_decide (v = x)
  end.
Definition eq_scalar (series : list cell) (x : cell) : list bool :=
  (λ v, cell_eq v x) <$> series.

(** [df[mask]] for a boolean mask. *)
Definition select (df : DataFrame) (mask : list bool) : DataFrame :=
  {| columns := columns df;
     rows := (filter (λ rb, snd rb = true) (zip (rows df) mask)).*1 |}.

Definition len (df : DataFrame) : nat := length (rows df).

Record manager := {
  data : DataFrame;
  category_mapping : list (string * list string)
}.

Definition unclassified : string := "unclassified".

Definition reverse_mapping_of (mapping : list (string * list string)) : gmap string string :=
  foldl (λ rm cl, foldl (λ rm item, <[item := cl.1]> rm) rm cl.2) ∅ mapping.

Definition map_to_category (self : manager) (label : cell) : string :=
  let reverse_mapping := reverse_mapping_of (category_mapping self) in
  match label with
  | Str s => default unclassified (reverse_mapping !! s)
  | _ => unclassified
  end.

Definition _apply_category_mapping (self : manager) : res manager :=
  labels ← getitem (data self) "label";
  Ok {| data := setitem (data self) "general_category"
                  ((λ x, Str (map_to_category self x)) <$> labels);
        category_mapping := category_mapping self |}.

(** [DatasetManager(file_path, category_mapping)], on the frame read from the file. *)
Definition init (csv : DataFrame) (category_mapping : list (string * list string))
  : res manager :=
  _apply_category_mapping {| data := csv; category_mapping := category_mapping |}.

Record MetricsResult := { TPrate : Qc; mAP : Qc }.

Definition Qc_of_nat (n : nat) : Qc := Qc_of_Z (Z.of_nat n).

Definition calculate_category_metrics (self : manager) (category : cell)
  : res MetricsResult :=
  general ← getitem (data self) "general_category";
  let category_data := select (data self) (eq_scalar general category) in
  status ← getitem category_data "status";
  let tp := (Qc_of_nat (len (select category_data (eq_scalar status (Str "TP")))) / 2)%Qc in
  status ← getitem category_data "status";
  let fp := Qc_of_nat (len (select category_data (eq_scalar status (Str "FP")))) in
  status ← getitem category_data "status";
  let fn := Qc_of_nat (len (select category_data (eq_scalar status (Str "FN")))) in
  let tprate := (if bool_decide (0 < tp + fn) then tp / (tp + fn) else 0)%Qc in
  let map_value := (if bool_decide (0 < tp + fp) then tp / (tp + fp) else 0)%Qc in
  Ok {| TPrate := tprate; mAP := map_value |}.

(** [metrics[k] = v] *)
Fixpoint dict_set {V} (metrics : list (cell * V)) (k : cell) (v : V) : list (cell * V) :=
  match metrics with
  | [] => [(k, v)]
  | (k', v') :: rest =>
      if decide (k' = k) then (k, v) :: rest else (k', v') :: dict_set rest k v
  end.

Definition calculate_metrics (self : manager) : res (list (cell * MetricsResult)) :=
  general ← getitem (data self) "general_category";
  let categories := unique general in
  foldM (λ metrics category,
           if negb (cell_eq category (Str unclassified)) then
             m ← calculate_category_metrics self category;
             Ok (dict_set metrics category m)
           else Ok metrics)
        [] categories.

(** [(x // bin_size) * bin_size] on one cell.  A zero [bin_size] makes the
    quotient infinite or nan, and its product with zero nan. *)
Definition bin_of (bin_size d : Qc) : cell :=
  if decide (bin_size = 0%Qc) then NaN
  else Num (Qc_of_Z (Qfloor (d / bin_size)%Qc) * bin_size)%Qc.

Definition floordiv_mul (bin_size : Qc) (v : cell) : res cell :=
  match v with
  | NaN => Ok NaN
  | Num d => Ok (bin_of bin_size d)
  | Bool b => Ok (bin_of bin_size (if b then 1 else 0)%Qc)
  | Str _ => Raise TypeError
  end.

(** The order in which [groupby] lists its keys. *)
Definition cell_le (a b : cell) : Prop :=
  match a, b with
  | NaN, _ => True
  | Bool x, Bool y => implb x y
  | Bool _, (Num _ | Str _) => True
  | Num x, Num y => (x ≤ y)%Qc
  | Num _, Str _ => True
  | Str s, Str t => String.le s t
  | _, _ => False
  end.

#[global] Instance cell_le_dec : RelDecision cell_le.
Proof. intros [] []; simpl; apply _. Defined.

(** The table [df.groupby([k1, k2]).size().unstack(fill_value=0)]: one line
    per value of [k1] and one column per value of [k2], both ascending, and
    the number of rows with that pair of keys. *)
Record Grouped := {
  g_index : list cell;
  g_columns : list cell;
  g_values : list (list nat)
}.

Definition isna (v : cell) : bool := bool_decide (v = NaN).

(** The key pairs of the rows that [groupby] keeps: a nan key drops the row. *)
Definition group_keys (c1 c2 : list cell) : list (cell * cell) :=
  filter (λ k, isna k.1 = false ∧ isna k.2 = false) (zip c1 c2).

Definition group_size (ks : list (cell * cell)) (k : cell * cell) : nat :=
  length (filter (λ k', k' = k) ks).

Definition groupby_size_unstack (df : DataFrame) (k1 k2 : string) : res Grouped :=
  c1 ← getitem df k1;
  c2 ← getitem df k2;
  let ks := group_keys c1 c2 in
  let index := merge_sort cell_le (remove_dups ks.*1) in
  let cols := merge_sort cell_le (remove_dups ks.*2) in
  Ok {| g_index := index;
        g_columns := cols;
        g_values := (λ i, (λ c, group_size ks (i, c)) <$> cols) <$> index |}.

(** The assignment to [self.data['distance_bin']], shared by both methods.
    An exception raised before the assignment leaves the state as it was. *)
Definition assign_distance_bin (self : manager) (bin_size : Qc) : res manager :=
  distance ← getitem (data self) "distance_from_ego";
  bins ← mapM (floordiv_mul bin_size) distance;
  Ok {| data := setitem (data self) "distance_bin" bins;
        category_mapping := category_mapping self |}.

(** A method call yields the state it leaves and its result or exception. *)
Definition distance_based_fp_tp_fn (self : manager) (bin_size : Qc)
  : manager * res Grouped :=
  match assign_distance_bin self bin_size with
  | Raise e => (self, Raise e)
  | Ok self' => (self', groupby_size_unstack (data self') "distance_bin" "status")
  end.

Definition distance_based_categoly_analysis (self : manager) (bin_size : Qc)
  : manager * res Grouped :=
  match assign_distance_bin self bin_size with
  | Raise e => (self, Raise e)
  | Ok self' =>
      (self', groupby_size_unstack (data self') "distance_bin" "general_category")
  end.

End DatasetManager.

(** ** Definitions that follow the words of the specification *)

Module Spec.
Import Py.

(** Two characters that are one letter up to case: equal, or an ASCII capital
    and its small letter. *)
Definition letter_pair (u l : ascii) : Prop :=
  (65 ≤ nat_of_ascii u)%nat ∧ (nat_of_ascii u ≤ 90)%nat ∧
  nat_of_ascii l = (nat_of_ascii u + 32)%nat.
Definition same_letter (a b : ascii) : Prop :=
  a = b ∨ letter_pair a b ∨ letter_pair b a.

#[global] Instance same_letter_dec a b : Decision (same_letter a b).
Proof. unfold same_letter, letter_pair. apply _. Defined.

(** "case-insensitive equals" *)
Fixpoint caseless_eq (s t : string) : Prop :=
  match s, t with
  | "", "" => True
  | String a s', String b t' => same_letter a b ∧ caseless_eq s' t'
  | _, _ => False
  end.

(** "strips a single pair of enclosing bracket characters [ ] if present" *)
Definition strip_brackets (s : string) : string :=
  match s with
  | String "[" rest =>
      match String.rev rest with
      | String "]" mid => String.rev mid
      | _ => s
      end
  | _ => s
  end.

(** [toNumericList] as the specification words it. *)
Definition toNumericList (v : value) : value :=
  match v with
  | VList l => VList l
  | VStr s =>
      match mapM float_of_string (split "," (strip_brackets s)) with
      | Ok fs => VList (VFloat <$> fs)
      | Raise _ => VList []
      end
  | _ => VList []
  end.

(** What the code strips instead: every bracket character of the string. *)
Definition without_brackets (s : string) : string :=
  string_of_list_ascii
    (filter (λ c, c ≠ "["%char ∧ c ≠ "]"%char) (list_ascii_of_string s)).

(** The nested [header.stamp] of [frame.Ego.TransformStamped], as [parse_ego]
    reads it. *)
Definition header_stamp (frame : value) : res value :=
  ego ← get frame "Ego" (VDict []);
  transform ← get ego "TransformStamped" (VDict []);
  header ← get transform "header" (VDict []);
  get header "stamp" (VDict []).

(** The record-level reads of [extract_objects]: the frame, the stamp, the
    success indicator and the object list of a record. *)
Definition record_parts (record : value) : res (value * value * value * value) :=
  frame ← get record "Frame" (VDict []);
  result ← get record "Result" (VDict []);
  stamps ← get record "Stamp" (VDict []);
  stamp ← get stamps "ROS" VNone;
  success ← get result "Success" VNone;
  criteria0 ← get frame "criteria0" (VDict []);
  objects ← get criteria0 "Objects" (VList []);
  Ok (frame, stamp, success, objects).

(** The position and orientation fields of the ego row, as [parse_ego] reads
    them from [transform.translation] and [transform.rotation]. *)
Definition ego_pose (frame : value) : res dict :=
  ego ← get frame "Ego" (VDict []);
  transform ← get ego "TransformStamped" (VDict []);
  transform_data ← get transform "transform" (VDict []);
  translation ← get transform_data "translation" (VDict []);
  rotation ← get transform_data "rotation" (VDict []);
  position_x ← get translation "x" VNone;
  position_y ← get translation "y" VNone;
  position_z ← get translation "z" VNone;
  orientation_x ← get rotation "x" VNone;
  orientation_y ← get rotation "y" VNone;
  orientation_z ← get rotation "z" VNone;
  orientation_w ← get rotation "w" VNone;
  Ok [ ("position_x", position_x);
       ("position_y", position_y);
       ("position_z", position_z);
       ("orientation_x", orientation_x);
       ("orientation_y", orientation_y);
       ("orientation_z", orientation_z);
       ("orientation_w", orientation_w) ].

(** An [int] too large to become a float: the operand on which [+] and [*]
    with a float raise [OverflowError]. *)
Definition too_large (v : value) : bool :=
  match v with
  | VInt n => negb (Z.abs n <? int_float_bound)%Z
  | _ => false
  end.

(** The exception of [None + nanosec * 1e-9]: the product is evaluated first,
    and fails on an [int] too large; otherwise the product or the sum fails
    on the type of an operand. *)
Definition sum_error (nanosec : value) : exn :=
  if too_large nanosec then OverflowError else TypeError.

(** A success indicator of the documented type [Union[bool, str, None]]. *)
Definition success_ok (v : value) : bool :=
  match v with VNone | VBool _ | VStr _ => true | _ => false end.

Definition ego_columns : list string :=
  [ "timestamp"; "object_type"; "position_x"; "position_y"; "position_z";
    "orientation_x"; "orientation_y"; "orientation_z"; "orientation_w" ].

Definition object_columns : list string :=
  [ "timestamp"; "status"; "object_type"; "label"; "distance_from_ego";
    "position_x"; "position_y"; "position_z";
    "velocity_x"; "velocity_y"; "velocity_z";
    "orientation_x"; "orientation_y"; "orientation_z"; "orientation_w";
    "pose_error_x"; "pose_error_y"; "pose_error_z"; "heading_error_z";
    "velocity_error_x"; "velocity_error_y"; "bev_error";
    "pose_covariance"; "twist_covariance"; "frame_success" ].

End Spec.

(** ** Sample inputs *)

Module Sample.
Import Py.

Definition num (q : Q) : value := VFloat (FFin (Q2Qc q)).

(** The [Ego] entry quoted in the comment above [parse_ego]. *)
Definition ego : value :=
  VDict [ ("TransformStamped", VDict
    [ ("header", VDict
        [ ("stamp", VDict [("sec", VInt 1606799233); ("nanosec", VInt 249851000)]);
          ("frame_id", VStr "map") ]);
      ("child_frame_id", VStr "base_link");
      ("transform", VDict
        [ ("translation", VDict
            [ ("x", num 89529.32151795654); ("y", num 42417.52324213837);
              ("z", num 6.100472927093506) ]);
          ("rotation", VDict
            [ ("x", num (-0.0012963204108964923)); ("y", num (-0.012038447733785842));
              ("z", num 0.8606085035719773); ("w", num 0.509123166737829) ]) ]);
      ("rotation_euler", VDict
        [ ("roll", num 0.01940406194940797); ("pitch", num (-0.014489861037339223));
          ("yaw", num 2.0733150481017883) ]) ]) ].

Definition car : value :=
  VDict [ ("status", VStr "TP"); ("object_type", VStr "EST"); ("label", VStr "car");
          ("distance_from_ego", num 23.4);
          ("position", VDict [("x", num 1.5); ("y", num 2); ("z", num 0)]);
          ("pose_covariance", VStr "[1.0, 2.5, 3]") ].

Definition frame : value :=
  VDict [ ("Ego", ego); ("criteria0", VDict [("Objects", VList [car])]) ].

(** A record with an ego stamp and one object. *)
Definition record : value :=
  VDict [ ("Frame", frame);
          ("Result", VDict [("Success", VStr "True")]);
          ("Stamp", VDict [("ROS", num 1606799233.3)]) ].

(** The ego row of [frame]. *)
Definition ego_row : dict :=
  [ ("timestamp", num 1606799233.249851);
    ("object_type", VStr "Ego");
    ("position_x", num 89529.32151795654);
    ("position_y", num 42417.52324213837);
    ("position_z", num 6.100472927093506);
    ("orientation_x", num (-0.0012963204108964923));
    ("orientation_y", num (-0.012038447733785842));
    ("orientation_z", num 0.8606085035719773);
    ("orientation_w", num 0.509123166737829) ].

(** A record whose frame has objects but no [Ego] entry, hence no stamp. *)
Definition record_without_stamp : value :=
  VDict [ ("Frame", VDict [("criteria0", VDict [("Objects", VList [car])])]) ].

(** A record whose frame has neither a stamp nor an object. *)
Definition record_without_stamp_or_object : value :=
  VDict [ ("Frame", VDict [("criteria0", VDict [("Objects", VList [])])]) ].

Definition frame_without_sec : value :=
  VDict [ ("Ego", VDict [ ("TransformStamped", VDict
            [ ("header", VDict [("stamp", VDict [("nanosec", VInt 249851000)])]) ]) ]);
          ("criteria0", VDict [("Objects", VList [car])]) ].

(** A record whose stamp has [nanosec] but no [sec]. *)
Definition record_without_sec : value :=
  VDict [ ("Frame", frame_without_sec) ].

(** A frame that holds nothing but a stamp. *)
Definition stamp_frame (stamp : dict) : value :=
  VDict [ ("Ego", VDict [ ("TransformStamped", VDict
            [ ("header", VDict [("stamp", VDict stamp)]) ]) ]) ].

(** A frame whose [Ego] is null. *)
Definition frame_with_null_ego : value := VDict [ ("Ego", VNone) ].

(** An integer that JSON can hold and a float cannot. *)
Definition huge : Z := 10 ^ 400.

End Sample.

(** ** Definitions of the specification for the metrics and the aggregation *)

Module MetricsSpec.
Import Py DatasetManager.

(** "the category listed last in the mapping" whose labels contain the label *)
Fixpoint last_category (mapping : list (string * list string)) (label : string)
  : option string :=
  match mapping with
  | [] => None
  | (category, labels) :: rest =>
      match last_category rest label with
      | Some c => Some c
      | None => if decide (label ∈ labels) then Some category else None
      end
  end.

(** "number of rows with status s", among the rows of a category *)
Definition count_rows (self : manager) (category s : string) : nat :=
  length (filter (λ r, at_col "general_category" r = Str category ∧
                       at_col "status" r = Str s)
                 (rows (data self))).

(** The same count as the code compares cells, for any category object. *)
Definition count_by (self : manager) (category : cell) (s : string) : nat :=
  length (filter (λ r, cell_eq (at_col "general_category" r) category = true ∧
                       cell_eq (at_col "status" r) (Str s) = true)
                 (rows (data self))).

(** The rates of a category from its numbers of TP, FP and FN rows. *)
Definition metrics_of (n_tp n_fp n_fn : nat) : MetricsResult :=
  let tp := (Qc_of_nat n_tp / 2)%Qc in
  let fp := Qc_of_nat n_fp in
  let fn := Qc_of_nat n_fn in
  {| TPrate := (if bool_decide (0 < tp + fn) then tp / (tp + fn) else 0)%Qc;
     mAP := (if bool_decide (0 < tp + fp) then tp / (tp + fp) else 0)%Qc |}.


(** The distance of a row as a number: null when the cell is nan. *)
Definition distance_of (r : gmap string cell) : option Qc :=
  match at_col "distance_from_ego" r with
  | Num d => Some d
  | Bool b => Some (if b then 1 else 0)%Qc
  | _ => None
  end.

(** A cell of text, on which the floor division raises. *)
Definition is_text (v : cell) : bool :=
  match v with Str _ => true | _ => false end.

(** The bin cell of a row: nan when the distance is null. *)
Definition bin_cell (bin_size : Qc) (r : gmap string cell) : cell :=
  match distance_of r with
  | Some d => bin_of bin_size d
  | None => NaN
  end.



(** The key pairs (bin, value of the grouping column) of the rows that an
    aggregation keeps. *)
Definition kept_keys (self : manager) (bin_size : Qc) (by_col : string)
  : list (cell * cell) :=
  group_keys (bin_cell bin_size <$> rows (data self))
             (at_col by_col <$> rows (data self)).

(** The table of a list of key pairs. *)
Definition table_of (ks : list (cell * cell)) : Grouped :=
  let index := merge_sort cell_le (remove_dups ks.*1) in
  let cols := merge_sort cell_le (remove_dups ks.*2) in
  {| g_index := index;
     g_columns := cols;
     g_values := (λ i, (λ c, group_size ks (i, c)) <$> cols) <$> index |}.

(** The state once [distance_bin] holds the bin of every row. *)
Definition with_bins (self : manager) (bin_size : Qc) : manager :=
  {| data :=
       {| columns := if decide ("distance_bin" ∈ columns (data self))
                     then columns (data self)
                     else columns (data self) ++ ["distance_bin"];
          rows := (λ r, <["distance_bin" := bin_cell bin_size r]> r)
                    <$> rows (data self) |};
     category_mapping := category_mapping self |}.

(** "mutates the stored dataset only by adding or overwriting the
    distance_bin column": same mapping, every other column present or
    absent as before, as many rows, and each row with the same cell in
    every other column. *)
Definition only_distance_bin_differs (self self' : manager) : Prop :=
  category_mapping self' = category_mapping self ∧
  (∀ c, c ≠ "distance_bin" → c ∈ columns (data self') ↔ c ∈ columns (data self)) ∧
  Forall2 (λ r r' : gmap string cell, ∀ c, c ≠ "distance_bin" → r' !! c = r !! c)
          (rows (data self)) (rows (data self')).

(** The two aggregations, by the column they group on. *)
Inductive mode := by_status | by_category.

Definition by_column (m : mode) : string :=
  match m with by_status => "status" | by_category => "general_category" end.

Definition aggregate (m : mode) (self : manager) (bin_size : Qc)
  : manager * res Grouped :=
  match m with
  | by_status => distance_based_fp_tp_fn self bin_size
  | by_category => distance_based_categoly_analysis self bin_size
  end.

(** The state after a sequence of aggregation calls. *)
Definition run_calls (calls : list (mode * Qc)) (self : manager) : manager :=
  foldl (λ self call, (aggregate call.1 self call.2).1) self calls.


End MetricsSpec.

Module MetricsSample.
Import Py DatasetManager.

(** The mapping of [main]. *)
Definition main_mapping : list (string * list string) :=
  [ ("car", ["car"; "vehicle.car"]);
    ("large_vehicle",
     ["bus"; "vehicle.bus (bendy & rigid)"; "truck"; "trailer"; "vehicle.truck";
      "vehicle.trailer"; "vehicle.construction";
      "vehicle.emergency (ambulance & police)"]);
    ("pedestrian",
     ["pedestrian"; "pedestrian.adult"; "pedestrian.child"; "pedestrian.stroller"]);
    ("bike", ["bicycle"; "vehicle.bicycle"; "vehicle.motorcycle"]) ].

(** A mapping that lists "car" under two categories. *)
Definition overlapping_mapping : list (string * list string) :=
  [ ("car", ["car"; "vehicle.car"]); ("bike", ["bicycle"; "car"]) ].

Definition num (q : Q) : cell := Num (Q2Qc q).

Definition row (label status : string) (distance : cell) : gmap string cell :=
  {[ "label" := Str label; "status" := Str status; "distance_from_ego" := distance ]}.

(** Four TP rows, one FP row and one FN row of cars, one of them without
    distance, an unmapped label, and an ego line of nan. *)
Definition csv : DataFrame :=
  {| columns := ["label"; "status"; "distance_from_ego"];
     rows := [ row "car" "TP" (num 23.4); row "vehicle.car" "TP" (num 5);
               row "car" "TP" NaN; row "car" "TP" (num 15);
               row "car" "FP" (num 15); row "vehicle.car" "FN" (num 31);
               row "animal" "FP" (num 7);
               {[ "label" := NaN; "status" := NaN; "distance_from_ego" := NaN ]} ] |}.

Definition manager0 : manager :=
  {| data := csv; category_mapping := main_mapping |}.

Definition overlapping_manager : manager :=
  {| data := csv; category_mapping := overlapping_mapping |}.

(** The state that [DatasetManager(csv, main_mapping)] builds. *)
Definition manager1 : manager :=
  {| data := setitem csv "general_category"
               ((λ x, Str (map_to_category manager0 x)) <$> (at_col "label" <$> rows csv));
     category_mapping := main_mapping |}.

End MetricsSample.

(** ** [analiys_jsonl_res.py]: classes [JSONLProcessor] and [ObjectProcessor] *)

Module JSONLProcessor.
Import Py.

(** [s.endswith(suffix)] *)
Fixpoint endswith (s suffix : string) : bool :=
  String.eqb s suffix ||
  match s with
  | "" => false
  | String _ s' => endswith s' suffix
  end.

Section folder.

(** The folder of the processor, as the operating system shows it:
    [os.listdir(folder_path)], the lines of the file of a given name in the
    folder, or the exception that opening or reading it raises, and
    [json.loads]. *)
Variable listdir : res (list string).
Variable read_lines : string → res (list string).
Variable loads : string → res value.

(** [[json.loads(line) for line in file]] under [with open(file_path)] *)
Definition read_records (file_name : string) : res (list value) :=
  lines ← read_lines file_name; mapM loads lines.

(** The body of [for file_name in files_in_folders]; its [except Exception]
    keeps the list as it was. *)
Definition read_file (all_data : list value) (file_name : string)
  : res (list value) :=
  if endswith file_name ".jsonl" then
    match read_records file_name with
    | Ok records => Ok (all_data ++ records)
    | Raise file_error => Ok all_data
    end
  else Ok all_data.

(** The loop under the outer [try]: an exception of the body ends the loop
    with the list built so far. *)
Fixpoint read_loop (all_data : list value) (files : list string) : list value :=
  match files with
  | [] => all_data
  | file_name :: rest =>
      match read_file all_data file_name with
      | Ok all_data' => read_loop all_data' rest
      | Raise folder_error => all_data
      end
  end.

(** [os.listdir] is called before the [try]. *)
Definition read_jsonl_files : res (list value) :=
  files_in_folders ← listdir;
  Ok (read_loop [] files_in_folders).

(** [ObjectProcessor(folder_path).process()] *)
Definition process : res ObjectExtractor.DataFrame :=
  data ← read_jsonl_files;
  objects ← ObjectExtractor.extract_objects data;
  Ok (ObjectExtractor.DataFrame_of_dicts objects).

End folder.

End JSONLProcessor.

(** ** Further definitions for the properties of the code *)

Module Extra.
Import Py.

(** The records that one file name of the folder contributes. *)
Definition file_records (read_lines : string → res (list string))
    (loads : string → res value) (file_name : string) : list value :=
  if JSONLProcessor.endswith file_name ".jsonl" then
    match read_lines file_name with
    | Ok lines =>
        match mapM loads lines with
        | Ok records => records
        | Raise _ => []
        end
    | Raise _ => []
    end
  else [].

(** The number of occurrences of a character in a string. *)
Fixpoint count_char (c : ascii) (s : string) : nat :=
  match s with
  | "" => 0
  | String a s' => (if Ascii.eqb a c then 1 else 0) + count_char c s'
  end.

(** A record that [extract_objects] passes over: [Frame] is missing or falsy. *)
Definition without_frame (record : value) : Prop :=
  ∃ frame, get record "Frame" (VDict []) = Ok frame ∧ truthy frame = false.

(** The cell of a tabulated row: nan for a field that the dict lacks or
    holds as nan, null for a field that it holds as [None], and otherwise
    the value of the dict. *)
Definition cell_of (d : dict) (c : string) : ObjectExtractor.table_cell :=
  match dict_lookup c d with
  | None | Some (VFloat FNaN) => ObjectExtractor.Nan
  | Some VNone => ObjectExtractor.Null
  | Some v => ObjectExtractor.Held v
  end.

(** The sum of all the entries of a table. *)
Definition total (g : DatasetManager.Grouped) : nat :=
  sum_list (sum_list <$> DatasetManager.g_values g).


End Extra.

Module ExtraSample.
Import Py.

(** A stand-in for [json.loads] that reads numbers only. *)
Definition loads (line : string) : res value :=
  match float_of_string line with
  | Ok f => Ok (VFloat f)
  | Raise e => Raise e
  end.

(** A folder with a good file, a file of another kind, a file with a bad
    line and a file that cannot be read. *)
Definition listdir : res (list string) :=
  Ok ["a.jsonl"; "notes.txt"; "b.jsonl"; "c.jsonl"; "d.jsonl"].

Definition read_lines (file_name : string) : res (list string) :=
  if String.eqb file_name "a.jsonl" then Ok ["1"; "2"]
  else if String.eqb file_name "notes.txt" then Ok ["3"]
  else if String.eqb file_name "b.jsonl" then Ok ["4"; "oops"; "5"]
  else if String.eqb file_name "d.jsonl" then Ok ["6"]
  else Raise KeyError.

(** A record whose success indicator is a number. *)
Definition record_with_numeric_success (objects : list value) : value :=
  VDict [ ("Frame", VDict [("Ego", Sample.ego);
                           ("criteria0", VDict [("Objects", VList objects)])]);
          ("Result", VDict [("Success", VInt 1)]) ].



End ExtraSample.

(** ** Properties *)

Import Py.

(** Closes an equation between closed terms that hold rationals. *)
Ltac closed_eq :=
  vm_compute;
  repeat first [ reflexivity | apply Qc_is_canon; reflexivity | f_equal ].

(** Membership in, and inclusion of, explicit lists of strings. *)
Ltac closed_elem := apply (bool_decide_unpack _); vm_compute; exact I.

(** Case analysis on the first step of the left-hand side. *)
Ltac case_head :=
  match goal with
  | |- (?m ≫= _) = _ => destruct m; [| done]; cbn [mbind res_bind bind]
  end.

Lemma bind_Ok {A B} (a : A) (k : A → res B) : (Ok a ≫= k) = k a.
Proof. reflexivity. Qed.

Lemma bind_Raise {A B} (e : exn) (k : A → res B) : (Raise e ≫= k) = Raise e.
Proof. reflexivity. Qed.

Lemma bind_Ok_inv {A B} (m : res A) (k : A → res B) (b : B) :
  (m ≫= k) = Ok b → ∃ a, m = Ok a ∧ k a = Ok b.
Proof. destruct m as [a|e]; [eauto | discriminate]. Qed.

Lemma bind_total {A B} (m : res A) (k : A → res B) :
  (∃ a, m = Ok a) → (∀ a, ∃ b, k a = Ok b) → ∃ b, (m ≫= k) = Ok b.
Proof. intros [a ->] Hk. apply Hk. Qed.

Section mapM.
Context {A B : Type}.

Lemma mapM_cons (f : A → res B) (x : A) (l : list A) :
  mapM f (x :: l) = (y ← f x; k ← mapM f l; Ok (y :: k)).
Proof. reflexivity. Qed.

Lemma mapM_Ok_Forall2 (f : A → res B) (l : list A) (k : list B) :
  mapM f l = Ok k ↔ Forall2 (λ x y, f x = Ok y) l k.
Proof.
  revert k. induction l as [|x l IH]; intros k.
  - split; [intros [= <-]; constructor | by inversion 1].
  - rewrite mapM_cons. split.
    + intros (y & Hy & H)%bind_Ok_inv. apply bind_Ok_inv in H as (k' & Hk' & [= <-]).
      constructor; [done | by apply IH].
    + inversion 1 as [|? y ? k' Hy Hk']; subst.
      apply IH in Hk'. by rewrite Hy, bind_Ok, Hk'.
Qed.

Lemma mapM_Raise_Exists (f : A → res B) (l : list A) (e : exn) :
  mapM f l = Raise e → Exists (λ x, f x = Raise e) l.
Proof.
  induction l as [|x l IH]; [discriminate|].
  rewrite mapM_cons. destruct (f x) as [y|e'] eqn:Hx.
  - rewrite bind_Ok. destruct (mapM f l) as [k|e'] eqn:Hl; [discriminate|].
    intros [= ->]. right. by apply IH.
  - intros [= ->]. by left.
Qed.

Lemma mapM_Exists_Raise (f : A → res B) (l : list A) :
  Exists (λ x, ∃ e, f x = Raise e) l → ∃ e, mapM f l = Raise e.
Proof.
  induction 1 as [x l [e He]|x l _ [e IH]]; rewrite mapM_cons.
  - rewrite He. eauto.
  - destruct (f x); [|eauto]. rewrite bind_Ok, IH. eauto.
Qed.

End mapM.

(** *** Boolean coercion *)

Lemma lower_ascii_same_letter (b : ascii) :
  b ∈ ["t"; "r"; "u"; "e"]%char → ∀ a, lower_ascii a = b ↔ Spec.same_letter a b.
Proof.
  intros Hb a.
  assert (Hd : bool_decide (lower_ascii a = b ↔ Spec.same_letter a b) = true).
  { repeat (apply elem_of_cons in Hb as [-> | Hb]);
      [ destruct a as [[] [] [] [] [] [] [] []]; vm_compute; reflexivity ..
      | by apply elem_of_nil in Hb ]. }
  by apply bool_decide_eq_true in Hd.
Qed.

Lemma lower_true_caseless s : lower s = "true" ↔ Spec.caseless_eq s "true".
Proof.
  destruct s as [|c1 [|c2 [|c3 [|c4 [|c5 s]]]]]; simpl;
    try (split; [discriminate | tauto]).
  rewrite <- !lower_ascii_same_letter by (repeat constructor).
  split; [intros [= -> -> -> ->]; tauto | intros (-> & -> & -> & -> & _); done].
Qed.

(** C8. [get_success] sends [None] to [False] and a boolean to itself, and
    a string to [True] exactly when the string is "true" up to the case of
    its letters, so that "false" and any other text give [False]; on the
    four sample inputs it returns [True], [True], [False] and [False]. *)
Theorem get_success_spec :
  ObjectExtractor.get_success VNone = Ok false ∧
  (∀ b, ObjectExtractor.get_success (VBool b) = Ok b) ∧
  (∀ s, ∃ b, ObjectExtractor.get_success (VStr s) = Ok b ∧
             (b = true ↔ Spec.caseless_eq s "true")) ∧
  ObjectExtractor.get_success (VBool true) = Ok true ∧
  ObjectExtractor.get_success (VStr "TRUE") = Ok true ∧
  ObjectExtractor.get_success (VStr "false") = Ok false.
Proof.
  repeat split; try reflexivity.
  intros s. eexists; split; [reflexivity|].
  rewrite <- lower_true_caseless. apply String.eqb_eq.
Qed.

(** *** Numeric-list coercion *)

Lemma remove_brackets_filter s :
  remove_char "]" (remove_char "[" s) = Spec.without_brackets s.
Proof.
  unfold Spec.without_brackets. induction s as [|a s IH]; [done|].
  cbn [remove_char list_ascii_of_string]. rewrite filter_cons.
  destruct (Ascii.eqb_spec a "[") as [->|Hl].
  - rewrite IH. by rewrite decide_False by (intros [? _]; done).
  - cbn [remove_char]. destruct (Ascii.eqb_spec a "]") as [->|Hr].
    + rewrite IH. by rewrite decide_False by (intros [_ ?]; done).
    + rewrite decide_True by done. cbn [string_of_list_ascii]. by rewrite IH.
Qed.

Lemma float_of_string_exn s e : float_of_string s = Raise e → e = ValueError.
Proof.
  unfold float_of_string.
  destruct (drop_underscores _ _) as [cs|]; [|by intros [= <-]].
  destruct (split_sign cs) as [neg body].
  destruct (_ || _); [discriminate|].
  destruct (String.eqb _ "nan"); [discriminate|].
  destruct (parse_decimal body) as [[m x]|]; [discriminate | by intros [= <-]].
Qed.

Lemma convert_to_list_str s :
  ObjectExtractor.convert_to_list (VStr s) =
  match mapM float_of_string (split "," (Spec.without_brackets s)) with
  | Ok covs => Ok (VList (VFloat <$> covs))
  | Raise _ => Ok (VList [])
  end.
Proof.
  unfold ObjectExtractor.convert_to_list. cbn [is_str].
  rewrite remove_brackets_filter.
  destruct (mapM _ _) as [covs|e] eqn:Hm; [done|].
  apply mapM_Raise_Exists, Exists_exists in Hm as (p & _ & Hp).
  by rewrite (float_of_string_exn _ _ Hp).
Qed.

Lemma convert_to_list_total v : ∃ l, ObjectExtractor.convert_to_list v = Ok (VList l).
Proof.
  destruct v as [| | | |s| |]; try (eexists; reflexivity).
  rewrite convert_to_list_str. destruct (mapM _ _); by eexists.
Qed.

(** C5, as stated, fails: the code removes every bracket of the string, so
    "[[1]]" converts to [[1.0]], where stripping one enclosing pair leaves
    "[1]", which is no float, and gives the empty list. *)
Lemma convert_to_list_removes_inner_brackets :
  ObjectExtractor.convert_to_list (VStr "[[1]]") = Ok (VList [VFloat (float_of_Z 1)]) ∧
  Spec.toNumericList (VStr "[[1]]") = VList [] ∧
  ObjectExtractor.convert_to_list (VStr "[[1]]") ≠ Ok (Spec.toNumericList (VStr "[[1]]")).
Proof. split; [closed_eq | split; [reflexivity | vm_compute; discriminate]]. Qed.

(** C5, amended.  A list is returned unchanged.  A string loses every
    character [ and ], wherever it stands, and is split on commas; when each
    piece parses as a float the result is the list of these floats, in
    order, and when some piece does not the result is the empty list.  Any
    other value gives the empty list.  The four sample conversions hold. *)
Theorem convert_to_list_spec :
  (∀ l, ObjectExtractor.convert_to_list (VList l) = Ok (VList l)) ∧
  (∀ s fs,
     Forall2 (λ p f, float_of_string p = Ok f)
             (split "," (Spec.without_brackets s)) fs →
     ObjectExtractor.convert_to_list (VStr s) = Ok (VList (VFloat <$> fs))) ∧
  (∀ s,
     Exists (λ p, ∃ e, float_of_string p = Raise e)
            (split "," (Spec.without_brackets s)) →
     ObjectExtractor.convert_to_list (VStr s) = Ok (VList [])) ∧
  (∀ v, is_str v = false → is_list v = false →
        ObjectExtractor.convert_to_list v = Ok (VList [])) ∧
  ObjectExtractor.convert_to_list (VStr "[1.0, 2.5, 3]") =
    Ok (VList [VFloat (float_of_Z 1); VFloat (FFin (Q2Qc 2.5)); VFloat (float_of_Z 3)]) ∧
  ObjectExtractor.convert_to_list (VStr "bad,data") = Ok (VList []) ∧
  ObjectExtractor.convert_to_list VNone = Ok (VList []) ∧
  ObjectExtractor.convert_to_list (VList [VInt 1; VInt 2]) = Ok (VList [VInt 1; VInt 2]).
Proof.
  split_and!; try reflexivity.
  - intros s fs Hfs. rewrite convert_to_list_str.
    apply mapM_Ok_Forall2 in Hfs. by rewrite Hfs.
  - intros s Hs. rewrite convert_to_list_str.
    by destruct (mapM_Exists_Raise _ _ Hs) as [e ->].
  - by intros [].
  - closed_eq.
Qed.

Lemma convert_to_list_spec_witness :
  ObjectExtractor.convert_to_list (VStr "[1, 2.5]") =
    Ok (VList (VFloat <$> [float_of_Z 1; FFin (Q2Qc 2.5)])) ∧
  ObjectExtractor.convert_to_list (VStr "1,x") = Ok (VList []) ∧
  ObjectExtractor.convert_to_list (VInt 7) = Ok (VList []).
Proof.
  destruct convert_to_list_spec as (_ & Hok & Hbad & Hother & _).
  split_and!.
  - apply Hok. vm_compute. repeat constructor; closed_eq.
  - apply Hbad. vm_compute. right. left. by eexists.
  - by apply Hother.
Defined.

(** *** Loops and lookups *)

Lemma get_Ok_inv obj key default v :
  get obj key default = Ok v →
  ∃ d, obj = VDict d ∧ v = from_option id default (dict_lookup key d).
Proof. destruct obj; try discriminate. intros [= <-]. eauto. Qed.

Lemma get_dict d key default :
  get (VDict d) key default = Ok (from_option id default (dict_lookup key d)).
Proof. reflexivity. Qed.

Lemma foldM_app {A B} (body : A → B → res A) acc l1 l2 :
  foldM body acc (l1 ++ l2) = (acc' ← foldM body acc l1; foldM body acc' l2).
Proof.
  revert acc. induction l1 as [|x l1 IH]; intros acc; [done|].
  cbn [foldM app]. destruct (body acc x) as [acc'|e]; [|done].
  rewrite !bind_Ok. apply IH.
Qed.

(** A loop that appends one computed item per element is a [mapM]. *)
Lemma foldM_snoc_mapM {A B} (f : B → res A) (acc : list A) (l : list B) :
  foldM (λ acc x, y ← f x; Ok (acc ++ [y])) acc l =
  (ys ← mapM f l; Ok (acc ++ ys)).
Proof.
  revert acc. induction l as [|x l IH]; intros acc.
  - cbn. by rewrite app_nil_r.
  - cbn [foldM]. rewrite mapM_cons. destruct (f x) as [y|e]; [|done].
    rewrite !bind_Ok, IH. destruct (mapM f l) as [ys|e]; [|done].
    rewrite !bind_Ok. by rewrite <- app_assoc.
Qed.

(** A loop whose body appends to the list built so far. *)
Lemma foldM_concat_mapM {A B} (f : B → res (list A)) (body : list A → B → res (list A))
    (acc : list A) (l : list B) :
  (∀ acc x, body acc x = (new ← f x; Ok (acc ++ new))) →
  foldM body acc l = (news ← mapM f l; Ok (acc ++ concat news)).
Proof.
  intros Hbody. revert acc. induction l as [|x l IH]; intros acc.
  - cbn. by rewrite app_nil_r.
  - cbn [foldM]. rewrite mapM_cons, Hbody. destruct (f x) as [new|e]; [|done].
    rewrite !bind_Ok, IH. destruct (mapM f l) as [news|e]; [|done].
    rewrite !bind_Ok. cbn [concat]. by rewrite <- app_assoc.
Qed.

(** *** Rows of one record *)

Section extract_record.
Import ObjectExtractor.

(** The rows a record adds do not depend on the rows before it. *)
Lemma extract_record_acc acc record :
  extract_record acc record = (new ← extract_record [] record; Ok (acc ++ new)).
Proof.
  unfold extract_record.
  destruct (get record "Frame" _) as [frame|e]; [|done]. rewrite !bind_Ok.
  destruct (negb (truthy frame)); [by rewrite bind_Ok, app_nil_r|].
  repeat (match goal with
          | |- context [get ?o ?k ?d ≫= _] =>
              destruct (get o k d) as [?|?]; [rewrite !bind_Ok | done]
          end).
  destruct (parse_ego frame) as [ego|e]; [|done]. rewrite !bind_Ok.
  destruct (iter _) as [objs|e]; [|done]. rewrite !bind_Ok.
  rewrite !foldM_snoc_mapM. destruct (mapM _ objs) as [orows|e]; [|done].
  rewrite !bind_Ok. by rewrite <- app_assoc.
Qed.

Lemma extract_objects_concat data :
  extract_objects data = (news ← mapM (extract_record []) data; Ok (concat news)).
Proof.
  unfold extract_objects.
  by rewrite (foldM_concat_mapM (extract_record [])) by apply extract_record_acc.
Qed.

(** The rows of a record in terms of its parts. *)
Lemma extract_record_parts record frame stamp success objects acc :
  Spec.record_parts record = Ok (frame, stamp, success, objects) →
  truthy frame = true →
  extract_record acc record =
    (ego ← parse_ego frame;
     objs ← iter objects;
     rows ← mapM (object_row stamp success) objs;
     Ok (acc ++ ego :: rows)).
Proof.
  unfold Spec.record_parts, extract_record. intros Hparts Hframe.
  destruct (get record "Frame" _) as [frame'|e]; [|done]. rewrite bind_Ok in *.
  repeat (match type of Hparts with
          | context [get ?o ?k ?d ≫= _] =>
              destruct (get o k d) as [?|?]; [rewrite !bind_Ok in * | done]
          end).
  injection Hparts as -> -> -> ->. rewrite Hframe. cbn [negb].
  destruct (parse_ego frame) as [ego|e]; [|done]. rewrite !bind_Ok.
  destruct (iter _) as [objs|e]; [|done]. rewrite !bind_Ok.
  rewrite foldM_snoc_mapM. destruct (mapM _ objs) as [orows|e]; [|done].
  rewrite !bind_Ok. by rewrite <- app_assoc.
Qed.

Lemma extract_record_falsy record frame acc :
  get record "Frame" (VDict []) = Ok frame → truthy frame = false →
  extract_record acc record = Ok acc.
Proof. unfold extract_record. intros -> Hf. by rewrite bind_Ok, Hf. Qed.

(** Whatever a successful call returns, it has this shape. *)
Lemma extract_record_Ok record frame acc out :
  get record "Frame" (VDict []) = Ok frame → truthy frame = true →
  extract_record acc record = Ok out →
  ∃ stamp success objects ego objs rows,
    Spec.record_parts record = Ok (frame, stamp, success, objects) ∧
    parse_ego frame = Ok ego ∧ iter objects = Ok objs ∧
    Forall2 (λ obj row, object_row stamp success obj = Ok row) objs rows ∧
    out = acc ++ ego :: rows.
Proof.
  intros Hframe Htrue Hout.
  assert (∃ stamp success objects,
            Spec.record_parts record = Ok (frame, stamp, success, objects))
    as (stamp & success & objects & Hparts).
  { revert Hout. unfold Spec.record_parts, extract_record.
    rewrite Hframe, !bind_Ok, Htrue. cbn [negb].
    repeat (match goal with
            | |- context [get ?o ?k ?d ≫= _] =>
                destruct (get o k d) as [?|?]; [rewrite !bind_Ok | done]
            end).
    eauto. }
  exists stamp, success, objects.
  rewrite (extract_record_parts _ _ _ _ _ _ Hparts Htrue) in Hout.
  apply bind_Ok_inv in Hout as (ego & Hego & Hout).
  apply bind_Ok_inv in Hout as (objs & Hobjs & Hout).
  apply bind_Ok_inv in Hout as (rows & Hrows & [= <-]).
  exists ego, objs, rows. by rewrite <- mapM_Ok_Forall2.
Qed.

End extract_record.

(** *** The ego row *)

Section parse_ego.
Import ObjectExtractor.

(** [parse_ego] in terms of the stamp and of the pose fields. *)
Lemma parse_ego_stamp frame st :
  Spec.header_stamp frame = Ok st →
  parse_ego frame =
    if negb (truthy st) then Ok []
    else
      sec ← get st "sec" VNone;
      nanosec ← get st "nanosec" (VInt 0);
      nano ← mul_float nanosec f1e_9;
      timestamp ← add_float sec nano;
      pose ← Spec.ego_pose frame;
      Ok (("timestamp", VFloat timestamp) :: ("object_type", VStr "Ego") :: pose).
Proof.
  unfold Spec.header_stamp, Spec.ego_pose, parse_ego. intros Hst.
  destruct (get frame "Ego" _) as [ego|e]; [|done]. rewrite !bind_Ok in *.
  destruct (get ego "TransformStamped" _) as [transform|e]; [|done].
  rewrite !bind_Ok in *.
  destruct (get transform "header" _) as [header|e] eqn:Hh; [|done].
  apply get_Ok_inv in Hh as (td & -> & ->). rewrite !get_dict, !bind_Ok in *.
  rewrite Hst, bind_Ok. destruct (negb (truthy st)); [done|].
  repeat case_head. done.
Qed.

Lemma parse_ego_no_stamp frame st :
  Spec.header_stamp frame = Ok st → truthy st = false → parse_ego frame = Ok [].
Proof. intros Hst Hf. by rewrite (parse_ego_stamp _ _ Hst), Hf. Qed.

Lemma ego_pose_keys frame pose :
  Spec.ego_pose frame = Ok pose → keys pose = drop 2 Spec.ego_columns.
Proof.
  unfold Spec.ego_pose. intros H.
  repeat (apply bind_Ok_inv in H as (? & _ & H)). by injection H as <-.
Qed.

Lemma parse_ego_keys frame row :
  parse_ego frame = Ok row → row = [] ∨ keys row = Spec.ego_columns.
Proof.
  intros Hrow.
  destruct (Spec.header_stamp frame) as [st|e] eqn:Hst.
  - rewrite (parse_ego_stamp _ _ Hst) in Hrow.
    destruct (negb (truthy st)); [left; congruence|]. right.
    do 4 (apply bind_Ok_inv in Hrow as (? & _ & Hrow)).
    apply bind_Ok_inv in Hrow as (pose & Hpose & [= <-]).
    unfold keys in *. cbn [fmap list_fmap fst]. fold (keys pose).
    by rewrite (ego_pose_keys _ _ Hpose).
  - exfalso. revert Hst Hrow. unfold Spec.header_stamp, parse_ego.
    destruct (get frame "Ego" _) as [ego|?]; [|done]. rewrite !bind_Ok.
    destruct (get ego "TransformStamped" _) as [transform|?]; [|done].
    rewrite !bind_Ok.
    destruct (get transform "transform" _) as [tdata|?]; [|done].
    rewrite !bind_Ok.
    destruct (get transform "header" _) as [header|?]; [|done].
    rewrite !bind_Ok. by intros ->.
Qed.

Lemma truthy_dict d : truthy (VDict d) = true ↔ d ≠ [].
Proof. by destruct d. Qed.

(** A stamp that is a non-empty dict makes the frame itself non-empty. *)
Lemma header_stamp_frame_truthy frame st :
  Spec.header_stamp frame = Ok st → truthy st = true → truthy frame = true.
Proof.
  unfold Spec.header_stamp. destruct frame as [| | | | | |[|b d]]; try done.
  by intros [= <-].
Qed.

Lemma as_float_cases v :
  as_float v = Raise (Spec.sum_error v) ∨
  Spec.too_large v = false ∧ ∃ x, as_float v = Ok x.
Proof.
  unfold Spec.sum_error.
  destruct v as [| |n| | | |]; cbn [as_float Spec.too_large]; eauto.
  destruct (Z.abs n <? int_float_bound)%Z; cbn [negb]; eauto.
Qed.

Lemma as_float_int n :
  as_float (VInt n) =
  if (Z.abs n <? int_float_bound)%Z then Ok (float_of_Z n) else Raise OverflowError.
Proof. reflexivity. Qed.

Lemma parse_ego_no_sec frame st :
  Spec.header_stamp frame = Ok (VDict st) → st ≠ [] →
  dict_lookup "sec" st = None →
  parse_ego frame =
    Raise (Spec.sum_error (from_option id (VInt 0) (dict_lookup "nanosec" st))).
Proof.
  intros Hst Hne Hsec. rewrite (parse_ego_stamp _ _ Hst).
  apply truthy_dict in Hne as ->. cbn [negb].
  rewrite !get_dict, Hsec, !bind_Ok. cbn [from_option]. unfold mul_float.
  destruct (as_float_cases (default (VInt 0) (dict_lookup "nanosec" st)))
    as [-> | (Hsmall & x & ->)]; [done|].
  rewrite !bind_Ok. unfold Spec.sum_error. by rewrite Hsmall.
Qed.

Lemma parse_ego_timestamp frame st (sec nanosec : Z) :
  Spec.header_stamp frame = Ok (VDict st) →
  dict_lookup "sec" st = Some (VInt sec) →
  dict_lookup "nanosec" st = Some (VInt nanosec) →
  (Z.abs sec < int_float_bound)%Z →
  (Z.abs nanosec < int_float_bound)%Z →
  parse_ego frame =
    (pose ← Spec.ego_pose frame;
     Ok (("timestamp",
          VFloat (FFin (Qc_of_Z sec + Qc_of_Z nanosec * Q2Qc (1 # 1000000000))%Qc))
           :: ("object_type", VStr "Ego") :: pose)).
Proof.
  intros Hst Hsec Hnano Hs Hn. rewrite (parse_ego_stamp _ _ Hst).
  assert (truthy (VDict st) = true) as -> by (by destruct st).
  cbn [negb]. rewrite !get_dict, Hsec, Hnano, !bind_Ok.
  unfold mul_float, add_float. cbn [from_option id]. rewrite !as_float_int.
  apply Z.ltb_lt in Hs as ->. apply Z.ltb_lt in Hn as ->. done.
Qed.

Lemma parse_ego_overflow frame st (sec nanosec : Z) :
  Spec.header_stamp frame = Ok (VDict st) →
  dict_lookup "sec" st = Some (VInt sec) →
  dict_lookup "nanosec" st = Some (VInt nanosec) →
  (int_float_bound ≤ Z.abs sec ∨ int_float_bound ≤ Z.abs nanosec)%Z →
  parse_ego frame = Raise OverflowError.
Proof.
  intros Hst Hsec Hnano Hlarge. rewrite (parse_ego_stamp _ _ Hst).
  assert (truthy (VDict st) = true) as -> by (by destruct st).
  cbn [negb]. rewrite !get_dict, Hsec, Hnano, !bind_Ok.
  unfold mul_float, add_float. cbn [from_option id]. rewrite !as_float_int.
  destruct (Z.ltb_spec (Z.abs nanosec) int_float_bound) as [Hn|Hn]; [|done].
  rewrite !bind_Ok. destruct (Z.ltb_spec (Z.abs sec) int_float_bound); [lia | done].
Qed.

Lemma header_stamp_Raise frame e :
  Spec.header_stamp frame = Raise e →
  e = AttributeError ∧ parse_ego frame = Raise AttributeError.
Proof.
  unfold Spec.header_stamp, parse_ego.
  destruct frame as [| | | | | |d]; try (by intros [= <-]).
  rewrite !get_dict, !bind_Ok.
  destruct (default (VDict []) (dict_lookup "Ego" d)) as [| | | | | |ego];
    try (by intros [= <-]).
  rewrite !get_dict, !bind_Ok.
  destruct (default (VDict []) (dict_lookup "TransformStamped" ego))
    as [| | | | | |transform]; try (by intros [= <-]).
  rewrite !get_dict, !bind_Ok.
  destruct (default (VDict []) (dict_lookup "header" transform))
    as [| | | | | |header]; by intros [= <-].
Qed.

End parse_ego.

(** *** Object rows and the table *)

Section object_row.
Import ObjectExtractor.

Lemma safe_get_total obj key default : ∃ v, safe_get obj key default = Ok v.
Proof.
  unfold safe_get. destruct obj as [| |n|f|s|l|d]; cbn [is_dict];
    rewrite ?andb_false_r; try (eexists; reflexivity).
  destruct (truthy (VDict d) && true); eexists; reflexivity.
Qed.

Lemma sub_get_total d field axis : ∃ v, sub_get (VDict d) field axis = Ok v.
Proof. unfold sub_get. rewrite get_dict, bind_Ok. apply safe_get_total. Qed.

Lemma get_success_total success :
  Spec.success_ok success = true → ∃ b, get_success success = Ok b.
Proof. destruct success; try done; by eexists. Qed.

Lemma object_row_keys stamp success obj row :
  object_row stamp success obj = Ok row → keys row = Spec.object_columns.
Proof.
  unfold object_row. intros H.
  repeat (apply bind_Ok_inv in H as (? & _ & H)). by injection H as <-.
Qed.

Lemma object_row_total stamp success d :
  Spec.success_ok success = true →
  ∃ row, object_row stamp success (VDict d) = Ok row.
Proof.
  intros Hs. unfold object_row.
  repeat (apply bind_total;
          [ first [ by eexists
                  | apply sub_get_total
                  | by apply get_success_total
                  | match goal with
                    | |- ∃ _, convert_to_list ?v = _ =>
                        destruct (convert_to_list_total v) as [? ->]; by eexists
                    end ]
          | intros ? ]).
  by eexists.
Qed.

Lemma DataFrame_of_dicts_rows objects :
  Forall (λ r, keys r = columns (DataFrame_of_dicts objects))
         (rows (DataFrame_of_dicts objects)) ∧
  length (rows (DataFrame_of_dicts objects)) = length objects.
Proof.
  unfold DataFrame_of_dicts. cbn [rows columns]. split.
  - apply Forall_fmap, Forall_forall. intros d _. cbn. unfold keys.
    rewrite <- list_fmap_compose. apply list_fmap_id.
  - apply length_fmap.
Qed.

End object_row.

(** C2, as stated, fails: the ego row of a record carries nine fields and
    its object row twenty-five, so the two rows that [extract_objects]
    returns for the sample record do not have the same field set: "status"
    is a field of the object row and is omitted from the ego row. *)
Lemma ego_row_omits_object_fields :
  ∃ ego_row object_row,
    ObjectExtractor.extract_objects [Sample.record] = Ok [ego_row; object_row] ∧
    keys ego_row = Spec.ego_columns ∧
    keys object_row = Spec.object_columns ∧
    keys ego_row ≠ keys object_row ∧
    "status" ∈ keys object_row ∧ "status" ∉ keys ego_row.
Proof.
  eexists _, _. split; [vm_compute; reflexivity|].
  split_and!; [reflexivity | reflexivity | discriminate | closed_elem | closed_elem].
Qed.

(** C2, amended.  Every object row has exactly the same twenty-five fields;
    an ego row has either no field at all or exactly the nine fields
    timestamp, object_type, position_x/y/z and orientation_x/y/z/w, all of
    them object-row fields: its other fields are omitted, not null.  The
    rows have one common column set only once tabulated, where a missing
    field is nan.  A record with an empty or missing [Frame] adds no row;
    any other record, when its extraction succeeds, adds exactly one ego
    entry followed by exactly one row per entry of its object list, in
    order, and the output is the concatenation of what the records add. *)
Theorem extracted_rows_spec :
  (∀ stamp success obj row,
     ObjectExtractor.object_row stamp success obj = Ok row →
     keys row = Spec.object_columns) ∧
  (∀ frame row,
     ObjectExtractor.parse_ego frame = Ok row →
     row = [] ∨ keys row = Spec.ego_columns) ∧
  Spec.ego_columns ⊆ Spec.object_columns ∧
  (∀ data df,
     ObjectExtractor.process data = Ok df →
     Forall (λ r, keys r = ObjectExtractor.columns df) (ObjectExtractor.rows df)) ∧
  (∀ record frame acc,
     get record "Frame" (VDict []) = Ok frame → truthy frame = false →
     ObjectExtractor.extract_record acc record = Ok acc) ∧
  (∀ record frame acc out,
     get record "Frame" (VDict []) = Ok frame → truthy frame = true →
     ObjectExtractor.extract_record acc record = Ok out →
     ∃ stamp success objects ego objs rows,
       Spec.record_parts record = Ok (frame, stamp, success, objects) ∧
       ObjectExtractor.parse_ego frame = Ok ego ∧ iter objects = Ok objs ∧
       Forall2 (λ obj row, ObjectExtractor.object_row stamp success obj = Ok row)
               objs rows ∧
       out = acc ++ ego :: rows) ∧
  (∀ record frame stamp success objects ego objs acc,
     Spec.record_parts record = Ok (frame, stamp, success, objects) →
     truthy frame = true →
     ObjectExtractor.parse_ego frame = Ok ego →
     iter objects = Ok objs →
     Forall (λ obj, is_dict obj = true) objs →
     Spec.success_ok success = true →
     ∃ rows,
       ObjectExtractor.extract_record acc record = Ok (acc ++ ego :: rows) ∧
       Forall2 (λ obj row, ObjectExtractor.object_row stamp success obj = Ok row)
               objs rows) ∧
  (∀ data out,
     ObjectExtractor.extract_objects data = Ok out →
     ∃ news,
       Forall2 (λ record new, ObjectExtractor.extract_record [] record = Ok new)
               data news ∧
       out = concat news).
Proof.
  split_and!.
  - apply object_row_keys.
  - apply parse_ego_keys.
  - closed_elem.
  - intros data df (objects & _ & [= <-])%bind_Ok_inv.
    apply DataFrame_of_dicts_rows.
  - apply extract_record_falsy.
  - apply extract_record_Ok.
  - intros record frame stamp success objects ego objs acc Hparts Hframe Hego
      Hobjs Hdicts Hsuccess.
    assert (∃ rows, mapM (ObjectExtractor.object_row stamp success) objs = Ok rows)
      as [rows Hrows].
    { clear Hobjs. induction Hdicts as [|obj objs Hobj _ [rows IH]]; [by eexists|].
      destruct obj; try done.
      destruct (object_row_total stamp success d Hsuccess) as [row Hrow].
      exists (row :: rows). by rewrite mapM_cons, Hrow, bind_Ok, IH. }
    exists rows. split; [|by apply mapM_Ok_Forall2].
    by rewrite (extract_record_parts _ _ _ _ _ _ Hparts Hframe), Hego, bind_Ok,
      Hobjs, bind_Ok, Hrows.
  - intros data out. rewrite extract_objects_concat.
    intros (news & Hnews & [= <-])%bind_Ok_inv.
    exists news. split; [by apply mapM_Ok_Forall2 | done].
Qed.

Lemma parse_ego_sample : ObjectExtractor.parse_ego Sample.frame = Ok Sample.ego_row.
Proof. closed_eq. Qed.

Lemma extracted_rows_spec_witness :
  ∃ rows,
    ObjectExtractor.extract_record [] Sample.record = Ok ([] ++ Sample.ego_row :: rows) ∧
    length rows = 1%nat ∧
    Forall (λ row, keys row = Spec.object_columns) rows.
Proof.
  destruct extracted_rows_spec as (Hobj & _ & _ & _ & _ & _ & Htotal & _).
  destruct (Htotal Sample.record Sample.frame (Sample.num 1606799233.3)
              (VStr "True") (VList [Sample.car]) Sample.ego_row [Sample.car] [])
    as (rows & Hrec & Hrows);
    [ reflexivity | reflexivity | apply parse_ego_sample | reflexivity
    | by repeat constructor | reflexivity | ].
  exists rows. split; [exact Hrec|].
  split; [by apply Forall2_length in Hrows|].
  clear Hrec. induction Hrows; constructor; eauto.
Defined.

(** *** Ego extraction without a stamp, and the timestamp *)

(** C3, as stated, fails: for a frame with no stamp (and no object) the
    extracted output still holds one row, the empty dict that [parse_ego]
    returns and [extract_objects] appends. *)
Lemma ego_without_stamp_appends_empty_row :
  Spec.header_stamp (VDict [("criteria0", VDict [("Objects", VList [])])])
    = Ok (VDict []) ∧
  ObjectExtractor.extract_objects [Sample.record_without_stamp_or_object] = Ok [[]] ∧
  ObjectExtractor.extract_objects [Sample.record_without_stamp_or_object] ≠ Ok [].
Proof. split_and!; [reflexivity | reflexivity | discriminate]. Qed.

(** C3, amended.  A frame whose [Ego], [TransformStamped] and [header] are
    dicts where present, and whose header.stamp is absent or empty (or
    null): [parse_ego] returns a row with no field, and when the frame is
    not empty and the record-level reads succeed [extract_objects] appends
    this empty row ahead of the rows of the frame's objects.  A frame where
    one of the three is present and no dict ([Ego] null, say) makes
    [parse_ego] raise [AttributeError], and a record whose frame is empty
    adds no row at all.  A stamp with integer [sec] and [nanosec]: when both
    are below the magnitude 2^1024 - 2^970 from which an integer no longer
    converts to a float, the ego row, built once the pose fields are read,
    starts with the timestamp sec + nanosec * 1e-9; when one of them is not,
    [parse_ego] raises [OverflowError].  For sec=1606799233,
    nanosec=249851000 the timestamp is 1606799233.249851. *)
Theorem ego_stamp_spec :
  (∀ frame st,
     Spec.header_stamp frame = Ok st → truthy st = false →
     ObjectExtractor.parse_ego frame = Ok [] ∧
     ∀ record stamp success objects acc,
       Spec.record_parts record = Ok (frame, stamp, success, objects) →
       truthy frame = true →
       ObjectExtractor.extract_record acc record =
         (objs ← iter objects;
          rows ← mapM (ObjectExtractor.object_row stamp success) objs;
          Ok (acc ++ [] :: rows))) ∧
  (∀ frame e,
     Spec.header_stamp frame = Raise e →
     e = AttributeError ∧ ObjectExtractor.parse_ego frame = Raise AttributeError) ∧
  (∀ record frame acc,
     get record "Frame" (VDict []) = Ok frame → truthy frame = false →
     ObjectExtractor.extract_record acc record = Ok acc) ∧
  (∀ frame st (sec nanosec : Z),
     Spec.header_stamp frame = Ok (VDict st) →
     dict_lookup "sec" st = Some (VInt sec) →
     dict_lookup "nanosec" st = Some (VInt nanosec) →
     ((Z.abs sec < int_float_bound)%Z → (Z.abs nanosec < int_float_bound)%Z →
      ObjectExtractor.parse_ego frame =
        (pose ← Spec.ego_pose frame;
         Ok (("timestamp",
              VFloat (FFin (Qc_of_Z sec
                            + Qc_of_Z nanosec * Q2Qc (1 # 1000000000))%Qc))
               :: ("object_type", VStr "Ego") :: pose))) ∧
     ((int_float_bound ≤ Z.abs sec ∨ int_float_bound ≤ Z.abs nanosec)%Z →
      ObjectExtractor.parse_ego frame = Raise OverflowError)) ∧
  (∃ row, ObjectExtractor.parse_ego Sample.frame = Ok row ∧
          dict_lookup "timestamp" row = Some (Sample.num 1606799233.249851)).
Proof.
  split_and!.
  - intros frame st Hst Hfalsy.
    pose proof (parse_ego_no_stamp _ _ Hst Hfalsy) as Hego.
    split; [done|]. intros record stamp success objects acc Hparts Hframe.
    by rewrite (extract_record_parts _ _ _ _ _ _ Hparts Hframe), Hego, bind_Ok.
  - apply header_stamp_Raise.
  - apply extract_record_falsy.
  - intros frame st sec nanosec Hst Hsec Hnano. split.
    + intros Hs Hn. by apply (parse_ego_timestamp _ st).
    + intros Hlarge. by apply (parse_ego_overflow _ st sec nanosec).
  - exists Sample.ego_row. split; [apply parse_ego_sample | reflexivity].
Qed.

Lemma ego_stamp_spec_witness :
  ObjectExtractor.parse_ego (VDict [("criteria0", VDict [("Objects", VList [Sample.car])])])
    = Ok [] ∧
  (∃ row, ObjectExtractor.extract_record [] Sample.record_without_stamp = Ok [[]; row]) ∧
  ObjectExtractor.parse_ego Sample.frame_with_null_ego = Raise AttributeError ∧
  ObjectExtractor.extract_record [] (VDict [("Frame", VDict [])]) = Ok [] ∧
  ObjectExtractor.parse_ego
    (Sample.stamp_frame [("sec", VInt 5); ("nanosec", VInt 500000000)])
    = Ok [ ("timestamp", VFloat (FFin (Qc_of_Z 5 + Qc_of_Z 500000000 * Q2Qc (1 # 1000000000))%Qc));
           ("object_type", VStr "Ego");
           ("position_x", VNone); ("position_y", VNone); ("position_z", VNone);
           ("orientation_x", VNone); ("orientation_y", VNone);
           ("orientation_z", VNone); ("orientation_w", VNone) ] ∧
  ObjectExtractor.parse_ego
    (Sample.stamp_frame [("sec", VInt Sample.huge); ("nanosec", VInt 0)])
    = Raise OverflowError.
Proof.
  destruct ego_stamp_spec as (Hnone & Hraise & Hempty & Hstamp & _).
  destruct (Hnone (VDict [("criteria0", VDict [("Objects", VList [Sample.car])])])
              (VDict []) eq_refl eq_refl) as [Hego Hrec].
  split_and!.
  - exact Hego.
  - rewrite (Hrec Sample.record_without_stamp VNone VNone (VList [Sample.car]) []
               eq_refl eq_refl).
    eexists. vm_compute. reflexivity.
  - exact (proj2 (Hraise Sample.frame_with_null_ego AttributeError eq_refl)).
  - exact (Hempty (VDict [("Frame", VDict [])]) (VDict []) [] eq_refl eq_refl).
  - apply (proj1 (Hstamp (Sample.stamp_frame [("sec", VInt 5); ("nanosec", VInt 500000000)])
                    [("sec", VInt 5); ("nanosec", VInt 500000000)] 5%Z 500000000%Z
                    eq_refl eq_refl eq_refl));
      vm_compute; reflexivity.
  - apply (proj2 (Hstamp (Sample.stamp_frame [("sec", VInt Sample.huge); ("nanosec", VInt 0)])
                    [("sec", VInt Sample.huge); ("nanosec", VInt 0)] Sample.huge 0%Z
                    eq_refl eq_refl eq_refl)).
    left. vm_compute. discriminate.
Defined.

(** *** A stamp without [sec] *)

(** C4, as stated, fails: the exception of the addition is not caught, so
    the ego row is not skipped while the extraction goes on: the call of
    [extract_objects] raises and returns no row at all, not even those of
    the well-formed record before. *)
Lemma stamp_without_sec_aborts_extraction :
  Spec.header_stamp Sample.frame_without_sec
    = Ok (VDict [("nanosec", VInt 249851000)]) ∧
  (∃ rows, ObjectExtractor.extract_objects [Sample.record] = Ok rows) ∧
  ObjectExtractor.extract_objects [Sample.record; Sample.record_without_sec]
    = Raise TypeError ∧
  ∀ rows,
    ObjectExtractor.extract_objects [Sample.record; Sample.record_without_sec]
      ≠ Ok rows.
Proof.
  split_and!; [reflexivity | eexists; vm_compute; reflexivity | reflexivity | discriminate].
Qed.

(** C4, amended.  For every frame whose header.stamp is a non-empty dict
    without [sec], no default is substituted for [sec] and [parse_ego]
    raises.  The product nanosec * 1e-9 is evaluated first: when [nanosec]
    is an integer of magnitude 2^1024 - 2^970 or more the exception is its
    [OverflowError]; in every other case it is a [TypeError], that of the
    product when [nanosec] is no number and else that of the addition of
    [None] and a float.  The exception is not handled: [extract_objects]
    raises on any input that holds a record with this frame, so no row at
    all is returned, and the exception is the one of [parse_ego] when the
    record-level reads succeed. *)
Theorem stamp_without_sec_spec :
  ∀ frame st nanosec,
    Spec.header_stamp frame = Ok (VDict st) → st ≠ [] →
    dict_lookup "sec" st = None →
    from_option id (VInt 0) (dict_lookup "nanosec" st) = nanosec →
    ObjectExtractor.parse_ego frame = Raise (Spec.sum_error nanosec) ∧
    (Spec.sum_error nanosec = OverflowError ↔
     ∃ n, nanosec = VInt n ∧ (int_float_bound ≤ Z.abs n)%Z) ∧
    (Spec.sum_error nanosec = TypeError ↔
     ¬ ∃ n, nanosec = VInt n ∧ (int_float_bound ≤ Z.abs n)%Z) ∧
    ∀ record,
      get record "Frame" (VDict []) = Ok frame →
      (∀ acc, ∃ e, ObjectExtractor.extract_record acc record = Raise e) ∧
      (∀ before after,
         ∃ e, ObjectExtractor.extract_objects (before ++ record :: after) = Raise e) ∧
      (∀ stamp success objects acc,
         Spec.record_parts record = Ok (frame, stamp, success, objects) →
         ObjectExtractor.extract_record acc record = Raise (Spec.sum_error nanosec)).
Proof.
  intros frame st nanosec Hst Hne Hsec Hnano.
  pose proof (parse_ego_no_sec _ _ Hst Hne Hsec) as Hego. rewrite Hnano in Hego.
  assert (truthy frame = true) as Hframe.
  { apply (header_stamp_frame_truthy _ _ Hst). by apply truthy_dict. }
  assert (Spec.too_large nanosec = true ↔
          ∃ n, nanosec = VInt n ∧ (int_float_bound ≤ Z.abs n)%Z) as Hlarge.
  { destruct nanosec as [| |n| | | |]; cbn [Spec.too_large];
      try (split; [done | by intros (? & [=] & _)]).
    rewrite negb_true_iff, Z.ltb_ge. split; [by exists n | by intros (? & [= <-] & ?)]. }
  split; [done|]. split_and!.
  - rewrite <- Hlarge. unfold Spec.sum_error. by destruct (Spec.too_large nanosec).
  - rewrite <- Hlarge. unfold Spec.sum_error. by destruct (Spec.too_large nanosec).
  - intros record Hrecord.
    assert (∀ acc, ∃ e, ObjectExtractor.extract_record acc record = Raise e) as Hraise.
    { intros acc.
      destruct (ObjectExtractor.extract_record acc record) as [out|e] eqn:Hout;
        [|by eexists].
      destruct (extract_record_Ok _ _ _ _ Hrecord Hframe Hout)
        as (? & ? & ? & ego & ? & ? & _ & Hego' & _).
      congruence. }
    split_and!.
    + done.
    + intros before after. unfold ObjectExtractor.extract_objects.
      rewrite foldM_app.
      destruct (foldM _ [] before) as [acc|e]; [|by eexists].
      rewrite bind_Ok. cbn [foldM]. destruct (Hraise acc) as [e ->]. by eexists.
    + intros stamp success objects acc Hparts.
      by rewrite (extract_record_parts _ _ _ _ _ _ Hparts Hframe), Hego.
Qed.

Lemma stamp_without_sec_spec_witness :
  ObjectExtractor.parse_ego Sample.frame_without_sec = Raise TypeError ∧
  (∃ e, ObjectExtractor.extract_objects
          ([Sample.record] ++ Sample.record_without_sec :: [Sample.record]) = Raise e) ∧
  ObjectExtractor.extract_record [] Sample.record_without_sec = Raise TypeError ∧
  ObjectExtractor.parse_ego (Sample.stamp_frame [("nanosec", VInt Sample.huge)])
    = Raise OverflowError ∧
  ObjectExtractor.parse_ego (Sample.stamp_frame [("nanosec", VStr "1")])
    = Raise TypeError.
Proof.
  destruct (stamp_without_sec_spec Sample.frame_without_sec
              [("nanosec", VInt 249851000)] (VInt 249851000)
              eq_refl ltac:(discriminate) eq_refl eq_refl)
    as (Hego & _ & _ & Hrec).
  destruct (Hrec Sample.record_without_sec eq_refl) as (_ & Hall & Hone).
  split_and!; [exact Hego | apply Hall | | |].
  - by apply (Hone VNone VNone (VList [Sample.car])).
  - exact (proj1 (stamp_without_sec_spec
                    (Sample.stamp_frame [("nanosec", VInt Sample.huge)])
                    [("nanosec", VInt Sample.huge)] (VInt Sample.huge)
                    eq_refl ltac:(discriminate) eq_refl eq_refl)).
  - exact (proj1 (stamp_without_sec_spec
                    (Sample.stamp_frame [("nanosec", VStr "1")])
                    [("nanosec", VStr "1")] (VStr "1")
                    eq_refl ltac:(discriminate) eq_refl eq_refl)).
Defined.

(** *** Category mapping *)

Section map_to_category.
Import DatasetManager.

Lemma insert_all_lookup (category : string) labels (rm : gmap string string) label :
  foldl (λ rm item, <[item := category]> rm) rm labels !! label =
  if decide (label ∈ labels) then Some category else rm !! label.
Proof.
  revert rm. induction labels as [|item labels IH]; intros rm; cbn [foldl].
  - by rewrite decide_False by apply not_elem_of_nil.
  - rewrite IH. destruct (decide (label ∈ labels)) as [Hin|Hin].
    + by rewrite decide_True by (by right).
    + destruct (decide (item = label)) as [->|Hne].
      * rewrite lookup_insert_eq. by rewrite decide_True by (by left).
      * rewrite lookup_insert_ne by done.
        by rewrite decide_False by (intros [?|?]%elem_of_cons; congruence).
Qed.

Lemma reverse_mapping_lookup mapping (rm : gmap string string) label :
  foldl (λ rm cl, foldl (λ rm item, <[item := cl.1]> rm) rm cl.2) rm mapping !! label =
  match MetricsSpec.last_category mapping label with
  | Some c => Some c
  | None => rm !! label
  end.
Proof.
  revert rm. induction mapping as [|[category labels] mapping IH]; intros rm; [done|].
  cbn [foldl MetricsSpec.last_category fst snd]. rewrite IH.
  destruct (MetricsSpec.last_category mapping label); [done|].
  rewrite insert_all_lookup. by destruct (decide (label ∈ labels)).
Qed.

Lemma map_to_category_last self label :
  map_to_category self (Str label) =
  default unclassified (MetricsSpec.last_category (category_mapping self) label).
Proof.
  unfold map_to_category, reverse_mapping_of. rewrite reverse_mapping_lookup.
  by destruct (MetricsSpec.last_category _ _).
Qed.

Lemma last_category_None mapping label :
  (∀ category labels, (category, labels) ∈ mapping → label ∉ labels) →
  MetricsSpec.last_category mapping label = None.
Proof.
  induction mapping as [|[category labels] mapping IH]; intros Hnone; [done|].
  cbn. rewrite IH by (intros ???; eapply Hnone; by right).
  rewrite decide_False; [done|]. eapply Hnone. by left.
Qed.

Lemma last_category_app before category labels after label :
  label ∈ labels →
  (∀ category' labels', (category', labels') ∈ after → label ∉ labels') →
  MetricsSpec.last_category (before ++ (category, labels) :: after) label
    = Some category.
Proof.
  intros Hin Hafter. induction before as [|[c ls] before IH]; cbn.
  - rewrite (last_category_None _ _ Hafter). by rewrite decide_True.
  - by rewrite IH.
Qed.

End map_to_category.

(** C9.  [map_to_category] returns "unclassified" for a label that no
    category of the mapping lists (and for a label that is no string), and
    otherwise the category that lists the label; when several categories
    list it, the one that comes last in the mapping. *)
Theorem map_to_category_spec :
  ∀ self label,
    ((∀ category labels,
        (category, labels) ∈ DatasetManager.category_mapping self → label ∉ labels) →
     DatasetManager.map_to_category self (DatasetManager.Str label)
       = "unclassified") ∧
    (∀ before category labels after,
       DatasetManager.category_mapping self = before ++ (category, labels) :: after →
       label ∈ labels →
       (∀ category' labels', (category', labels') ∈ after → label ∉ labels') →
       DatasetManager.map_to_category self (DatasetManager.Str label) = category) ∧
    (∀ x, (∀ s, x ≠ DatasetManager.Str s) →
          DatasetManager.map_to_category self x = "unclassified").
Proof.
  intros self label. split_and!.
  - intros Hnone. by rewrite map_to_category_last, last_category_None.
  - intros before category labels after Hmap Hin Hafter.
    by rewrite map_to_category_last, Hmap, (last_category_app _ _ _ _ _ Hin Hafter).
  - intros x Hx. destruct x as [| |s|]; try done. by destruct (Hx s).
Qed.

Lemma map_to_category_spec_witness :
  DatasetManager.map_to_category MetricsSample.manager0 (DatasetManager.Str "animal")
    = "unclassified" ∧
  DatasetManager.map_to_category MetricsSample.manager0 (DatasetManager.Str "truck")
    = "large_vehicle" ∧
  DatasetManager.map_to_category MetricsSample.overlapping_manager
    (DatasetManager.Str "car") = "bike" ∧
  DatasetManager.map_to_category MetricsSample.manager0 DatasetManager.NaN
    = "unclassified".
Proof.
  split_and!.
  - apply (proj1 (map_to_category_spec MetricsSample.manager0 "animal")).
    intros category labels Hin.
    unfold MetricsSample.manager0, MetricsSample.main_mapping in Hin;
      cbn [DatasetManager.category_mapping drop] in Hin.
    repeat (apply elem_of_cons in Hin as [[= -> ->]|Hin]; [closed_elem|]).
    by apply elem_of_nil in Hin.
  - apply (proj1 (proj2 (map_to_category_spec MetricsSample.manager0 "truck"))
             [("car", ["car"; "vehicle.car"])] "large_vehicle" _
             (drop 2 MetricsSample.main_mapping) eq_refl); [closed_elem|].
    intros category labels Hin.
    unfold MetricsSample.manager0, MetricsSample.main_mapping in Hin;
      cbn [DatasetManager.category_mapping drop] in Hin.
    repeat (apply elem_of_cons in Hin as [[= -> ->]|Hin]; [closed_elem|]).
    by apply elem_of_nil in Hin.
  - apply (proj1 (proj2 (map_to_category_spec MetricsSample.overlapping_manager "car"))
             [("car", ["car"; "vehicle.car"])] "bike" ["bicycle"; "car"] [] eq_refl);
      [closed_elem|].
    intros category labels Hin. by apply elem_of_nil in Hin.
  - by apply (proj2 (proj2 (map_to_category_spec MetricsSample.manager0 "")) DatasetManager.NaN).
Defined.

(** *** Frames: selection and counting *)

Section frames.
Import DatasetManager.

Lemma filter_zip_mask {A} (p : A → bool) (l : list A) :
  (filter (λ rb, rb.2 = true) (zip l (p <$> l))).*1 = filter (λ r, p r = true) l.
Proof.
  induction l as [|a l IH]; [done|].
  cbn [fmap list_fmap zip zip_with]. rewrite !filter_cons. cbn [snd].
  destruct (decide (p a = true)); cbn [fmap list_fmap fst]; by rewrite IH.
Qed.

Lemma select_eq_scalar df c x :
  rows (select df (eq_scalar (at_col c <$> rows df) x)) =
  filter (λ r, cell_eq (at_col c r) x = true) (rows df).
Proof.
  unfold select, eq_scalar. cbn [rows].
  rewrite <- list_fmap_compose. apply (filter_zip_mask (λ r, cell_eq (at_col c r) x)).
Qed.

Lemma cell_eq_Str v s : cell_eq v (Str s) = true ↔ v = Str s.
Proof.
  destruct v; cbn; try (split; done); rewrite bool_decide_eq_true; done.
Qed.

Lemma cell_eq_false_Str v s : cell_eq v (Str s) = false ↔ v ≠ Str s.
Proof. rewrite <- cell_eq_Str. by destruct (cell_eq v (Str s)). Qed.

Lemma count_by_Str self category s :
  MetricsSpec.count_by self (Str category) s = MetricsSpec.count_rows self category s.
Proof.
  unfold MetricsSpec.count_by, MetricsSpec.count_rows. f_equal.
  apply list_filter_iff. intros r. by rewrite !cell_eq_Str.
Qed.

(** [calculate_category_metrics] in terms of the three counts. *)
Lemma calculate_category_metrics_counts self category :
  calculate_category_metrics self category =
  if decide ("general_category" ∈ columns (data self)) then
    if decide ("status" ∈ columns (data self)) then
      Ok (MetricsSpec.metrics_of (MetricsSpec.count_by self category "TP")
                                 (MetricsSpec.count_by self category "FP")
                                 (MetricsSpec.count_by self category "FN"))
    else Raise KeyError
  else Raise KeyError.
Proof.
  unfold calculate_category_metrics, getitem.
  destruct (decide ("general_category" ∈ _)); [|done]. rewrite bind_Ok.
  cbn [columns select].
  destruct (decide ("status" ∈ _)); [|done]. rewrite !bind_Ok.
  assert (∀ s,
    len (select (select (data self)
                   (eq_scalar (at_col "general_category" <$> rows (data self)) category))
           (eq_scalar
              (at_col "status" <$>
                 rows (select (data self)
                         (eq_scalar (at_col "general_category" <$> rows (data self))
                            category)))
              (Str s)))
    = MetricsSpec.count_by self category s) as Hlen.
  { intros s. unfold len, MetricsSpec.count_by.
    rewrite select_eq_scalar, select_eq_scalar, list_filter_filter.
    f_equal. apply list_filter_iff. intros r. tauto. }
  by rewrite !Hlen.
Qed.

Lemma calculate_category_metrics_total self category :
  "general_category" ∈ columns (data self) → "status" ∈ columns (data self) →
  ∃ m, calculate_category_metrics self category = Ok m.
Proof.
  intros Hg Hs. rewrite calculate_category_metrics_counts.
  rewrite !decide_True by done. by eexists.
Qed.

End frames.

(** C1.  For every category, when the frame has the two columns the method
    reads, [calculate_category_metrics] returns TPrate = TP / (TP + FN) if
    TP + FN > 0 and 0 otherwise, and mAP = TP / (TP + FP) if TP + FP > 0 and
    0 otherwise, where TP is half the number of rows of the category with
    status "TP" and FP and FN are the numbers of its rows with status "FP"
    and "FN", not halved; with 4 TP rows, 1 FP row and 1 FN row, TP = 2,
    TPrate = 2/3 and mAP = 2/3. *)
Theorem calculate_category_metrics_spec :
  ∀ self category,
    "general_category" ∈ DatasetManager.columns (DatasetManager.data self) →
    "status" ∈ DatasetManager.columns (DatasetManager.data self) →
    let n := MetricsSpec.count_rows self category in
    let tp := (DatasetManager.Qc_of_nat (n "TP") / 2)%Qc in
    let fp := DatasetManager.Qc_of_nat (n "FP") in
    let fn := DatasetManager.Qc_of_nat (n "FN") in
    DatasetManager.calculate_category_metrics self (DatasetManager.Str category) =
      Ok {| DatasetManager.TPrate :=
              (if bool_decide (0 < tp + fn) then tp / (tp + fn) else 0)%Qc;
            DatasetManager.mAP :=
              (if bool_decide (0 < tp + fp) then tp / (tp + fp) else 0)%Qc |} ∧
    (n "TP" = 4%nat → n "FP" = 1%nat → n "FN" = 1%nat →
     tp = 2%Qc ∧
     DatasetManager.calculate_category_metrics self (DatasetManager.Str category) =
       Ok {| DatasetManager.TPrate := Q2Qc (2 # 3);
             DatasetManager.mAP := Q2Qc (2 # 3) |}).
Proof.
  intros self category Hg Hs n tp fp fn.
  assert (DatasetManager.calculate_category_metrics self (DatasetManager.Str category)
          = Ok (MetricsSpec.metrics_of (n "TP") (n "FP") (n "FN"))) as Hm.
  { rewrite calculate_category_metrics_counts, !decide_True by done.
    by rewrite !count_by_Str. }
  split; [exact Hm|].
  intros Htp Hfp Hfn. subst tp. rewrite Hm, Htp, Hfp, Hfn.
  split; closed_eq.
Qed.

Lemma calculate_category_metrics_spec_witness :
  DatasetManager.calculate_category_metrics MetricsSample.manager1
    (DatasetManager.Str "car") =
  Ok {| DatasetManager.TPrate := Q2Qc (2 # 3); DatasetManager.mAP := Q2Qc (2 # 3) |}.
Proof.
  apply (calculate_category_metrics_spec MetricsSample.manager1 "car");
    first [ closed_elem | vm_compute; reflexivity ].
Defined.

(** *** Overall metrics *)

Section unique.
Context `{EqDecision A}.

Lemma elem_of_unique_go (seen l : list A) x :
  x ∈ unique_go seen l ↔ x ∈ l ∧ x ∉ seen.
Proof.
  revert seen. induction l as [|a l IH]; intros seen; cbn [unique_go].
  - split; [by intros ?%elem_of_nil | by intros [?%elem_of_nil _]].
  - destruct (decide (a ∈ seen)) as [Ha|Ha].
    + rewrite IH, elem_of_cons. split; [tauto|]. intros [[->|?] ?]; tauto.
    + rewrite !elem_of_cons, IH, elem_of_cons.
      destruct (decide (x = a)) as [->|Hne]; [tauto|]. tauto.
Qed.

Lemma NoDup_unique_go (seen l : list A) : NoDup (unique_go seen l).
Proof.
  revert seen. induction l as [|a l IH]; intros seen; cbn [unique_go].
  - constructor.
  - destruct (decide (a ∈ seen)); [apply IH|].
    constructor; [|apply IH]. rewrite elem_of_unique_go, elem_of_cons. tauto.
Qed.

Lemma elem_of_unique (l : list A) x : x ∈ unique l ↔ x ∈ l.
Proof.
  unfold unique. rewrite elem_of_unique_go. split; [tauto|].
  intros ?. split; [done | apply not_elem_of_nil].
Qed.

Lemma NoDup_unique (l : list A) : NoDup (unique l).
Proof. apply NoDup_unique_go. Qed.

End unique.

Section calculate_metrics.
Import DatasetManager.

Lemma dict_set_fresh {V} (metrics : list (cell * V)) k v :
  k ∉ metrics.*1 → dict_set metrics k v = metrics ++ [(k, v)].
Proof.
  induction metrics as [|[k' v'] metrics IH]; cbn; [done|].
  rewrite not_elem_of_cons. intros [Hne Hk].
  rewrite decide_False by done. by rewrite IH.
Qed.

(** The loop of [calculate_metrics] over categories without repetition. *)
Lemma calculate_metrics_loop self categories metrics :
  (∀ c, ∃ m, calculate_category_metrics self c = Ok m) →
  NoDup categories →
  (∀ c, c ∈ categories → c ∉ metrics.*1) →
  ∃ new,
    foldM (λ metrics category,
             if negb (cell_eq category (Str unclassified)) then
               m ← calculate_category_metrics self category;
               Ok (dict_set metrics category m)
             else Ok metrics)
          metrics categories = Ok (metrics ++ new) ∧
    new.*1 = filter (λ c, c ≠ Str unclassified) categories ∧
    Forall (λ km, calculate_category_metrics self km.1 = Ok km.2) new.
Proof.
  intros Htotal Hnodup. revert metrics.
  induction Hnodup as [|c categories Hc Hnodup IH]; intros metrics Hfresh.
  - exists []. by rewrite app_nil_r.
  - cbn [foldM]. rewrite filter_cons.
    destruct (cell_eq c (Str unclassified)) eqn:Hun; cbn [negb].
    + apply cell_eq_Str in Hun as ->. rewrite bind_Ok.
      rewrite decide_False by (by intros []).
      apply IH. intros c' Hc'. apply Hfresh. by right.
    + apply cell_eq_false_Str in Hun. rewrite decide_True by done.
      destruct (Htotal c) as [m Hm]. rewrite Hm, !bind_Ok.
      rewrite dict_set_fresh by (apply Hfresh; by left).
      destruct (IH (metrics ++ [(c, m)])) as (new & Hfold & Hkeys & Hvals).
      { intros c' Hc'. rewrite fmap_app, elem_of_app. cbn.
        rewrite list_elem_of_singleton. intros [Hin| ->]; [|done].
        revert Hin. apply Hfresh. by right. }
      exists ((c, m) :: new). rewrite Hfold, <- app_assoc. split; [done|].
      split; [cbn; by rewrite Hkeys | by constructor].
Qed.

Lemma calculate_metrics_keys self :
  "general_category" ∈ columns (data self) → "status" ∈ columns (data self) →
  ∃ metrics,
    calculate_metrics self = Ok metrics ∧
    NoDup metrics.*1 ∧
    (∀ k, k ∈ metrics.*1 ↔
          k ≠ Str unclassified ∧
          ∃ r, r ∈ rows (data self) ∧ at_col "general_category" r = k) ∧
    (∀ k m, (k, m) ∈ metrics → calculate_category_metrics self k = Ok m).
Proof.
  intros Hg Hs. unfold calculate_metrics, getitem.
  rewrite decide_True by done. rewrite bind_Ok.
  destruct (calculate_metrics_loop self
              (unique (at_col "general_category" <$> rows (data self))) [])
    as (new & Hfold & Hkeys & Hvals).
  - intros c. by apply calculate_category_metrics_total.
  - apply NoDup_unique.
  - intros c _. apply not_elem_of_nil.
  - exists new. split; [exact Hfold|]. split_and!.
    + rewrite Hkeys. apply list.NoDup_filter, NoDup_unique.
    + intros k. rewrite Hkeys, list_elem_of_filter, elem_of_unique, list_elem_of_fmap.
      split; intros [Hk (r & ? & ?)]; (split; [done|]); by exists r.
    + intros k m Hin. rewrite list.Forall_forall in Hvals. apply (Hvals _ Hin).
Qed.

Lemma zip_with_insert_fmap (c : string) (f : gmap string cell → cell)
    (l : list (gmap string cell)) :
  zip_with (λ r v, <[c := v]> r) l (f <$> l) = (λ r, <[c := f r]> r) <$> l.
Proof. induction l as [|r l IH]; cbn; [done | by rewrite IH]. Qed.

(** The frame that the constructor stores: each row with its category. *)
Lemma init_data csv mapping :
  "label" ∈ columns csv →
  init csv mapping =
    Ok {| data :=
            {| columns := if decide ("general_category" ∈ columns csv)
                          then columns csv else columns csv ++ ["general_category"];
               rows := (λ r, <["general_category" :=
                                 Str (map_to_category
                                        {| data := csv; category_mapping := mapping |}
                                        (at_col "label" r))]> r) <$> rows csv |};
          category_mapping := mapping |}.
Proof.
  intros Hl. unfold init, _apply_category_mapping, getitem. cbn [data].
  rewrite decide_True by done. rewrite bind_Ok. unfold setitem. cbn [category_mapping].
  do 3 f_equal. rewrite <- list_fmap_compose.
  apply (zip_with_insert_fmap "general_category"
           (λ r, Str (map_to_category {| data := csv; category_mapping := mapping |}
                        (at_col "label" r)))).
Qed.

Lemma elem_of_setitem_columns df c series c' :
  c' ∈ columns (setitem df c series) ↔ c' ∈ columns df ∨ c' = c.
Proof.
  unfold setitem. cbn [columns]. destruct (decide (c ∈ columns df)) as [Hc|Hc].
  - split; [tauto|]. intros [?| ->]; done.
  - rewrite elem_of_app, list_elem_of_singleton. tauto.
Qed.

End calculate_metrics.

(** C7.  On the state built from any frame with a label and a status
    column, [calculate_metrics] returns one entry per category: its keys
    have no repetition, never hold "unclassified", and are exactly the
    categories, other than "unclassified", that [map_to_category] gives to
    the label of at least one row; the entry of a category is the result of
    [calculate_category_metrics] for it.  The same holds on any state with
    the two columns the method reads, for the stored categories. *)
Theorem calculate_metrics_spec :
  (∀ csv mapping,
     "label" ∈ DatasetManager.columns csv → "status" ∈ DatasetManager.columns csv →
     ∃ self metrics,
       DatasetManager.init csv mapping = Ok self ∧
       DatasetManager.calculate_metrics self = Ok metrics ∧
       NoDup metrics.*1 ∧
       (DatasetManager.Str "unclassified" ∉ metrics.*1) ∧
       (∀ k, k ∈ metrics.*1 ↔
             ∃ category,
               k = DatasetManager.Str category ∧ category ≠ "unclassified" ∧
               ∃ r, r ∈ DatasetManager.rows csv ∧
                    DatasetManager.map_to_category self
                      (DatasetManager.at_col "label" r) = category) ∧
       (∀ k m, (k, m) ∈ metrics →
               DatasetManager.calculate_category_metrics self k = Ok m)) ∧
  (∀ self,
     "general_category" ∈ DatasetManager.columns (DatasetManager.data self) →
     "status" ∈ DatasetManager.columns (DatasetManager.data self) →
     ∃ metrics,
       DatasetManager.calculate_metrics self = Ok metrics ∧
       NoDup metrics.*1 ∧
       (∀ k, k ∈ metrics.*1 ↔
             k ≠ DatasetManager.Str "unclassified" ∧
             ∃ r, r ∈ DatasetManager.rows (DatasetManager.data self) ∧
                  DatasetManager.at_col "general_category" r = k) ∧
       (∀ k m, (k, m) ∈ metrics →
               DatasetManager.calculate_category_metrics self k = Ok m)).
Proof.
  split; [|apply calculate_metrics_keys].
  intros csv mapping Hl Hs. eexists. rewrite (init_data _ _ Hl).
  match goal with |- ∃ _, Ok ?m = _ ∧ _ => set (self := m) end.
  destruct (calculate_metrics_keys self) as (metrics & Hm & Hnodup & Hkeys & Hvals).
  { subst self. cbn [DatasetManager.data DatasetManager.columns].
    destruct (decide _); [done|]. apply elem_of_app. right. by left. }
  { subst self. cbn [DatasetManager.data DatasetManager.columns].
    destruct (decide _); [done|]. apply elem_of_app. by left. }
  exists metrics. split_and!; try done.
  - rewrite Hkeys. by intros [? _].
  - intros k. rewrite Hkeys. subst self.
    cbn [DatasetManager.data DatasetManager.rows DatasetManager.category_mapping].
    split.
    + intros (Hk & r' & (r & -> & Hr)%list_elem_of_fmap & <-).
      unfold DatasetManager.at_col in Hk |- *. rewrite lookup_insert_eq in Hk |- *.
      cbn [default from_option id] in Hk |- *.
      unfold DatasetManager.unclassified in Hk.
      eexists. split; [reflexivity|]. split; [congruence|].
      exists r. split; [done|]. reflexivity.
    + intros (category & -> & Hne & r & Hr & <-).
      unfold DatasetManager.unclassified. split; [congruence|].
      eexists. split; [apply list_elem_of_fmap; by exists r|].
      unfold DatasetManager.at_col at 1. by rewrite lookup_insert_eq.
Qed.

Lemma calculate_metrics_spec_witness :
  ∃ metrics,
    DatasetManager.calculate_metrics MetricsSample.manager1 = Ok metrics ∧
    metrics.*1 = [DatasetManager.Str "car"].
Proof.
  destruct (proj1 calculate_metrics_spec MetricsSample.csv MetricsSample.main_mapping)
    as (self & metrics & Hinit & Hm & _); [closed_elem | closed_elem |].
  injection Hinit as <-.
  exists metrics. split; [exact Hm|].
  change (DatasetManager.calculate_metrics MetricsSample.manager1 = Ok metrics) in Hm.
  vm_compute in Hm. injection Hm as <-. reflexivity.
Defined.

(** *** Distance bins *)

Section distance_bin.
Import DatasetManager.

Lemma floordiv_mul_bin_cell bin_size r c :
  floordiv_mul bin_size (at_col "distance_from_ego" r) = Ok c →
  c = MetricsSpec.bin_cell bin_size r.
Proof.
  unfold MetricsSpec.bin_cell, MetricsSpec.distance_of.
  destruct (at_col "distance_from_ego" r); cbn; congruence.
Qed.

Lemma floordiv_mul_total bin_size r :
  MetricsSpec.is_text (at_col "distance_from_ego" r) = false →
  floordiv_mul bin_size (at_col "distance_from_ego" r)
    = Ok (MetricsSpec.bin_cell bin_size r).
Proof.
  unfold MetricsSpec.bin_cell, MetricsSpec.distance_of.
  by destruct (at_col "distance_from_ego" r).
Qed.

Lemma floordiv_mul_exn bin_size v e : floordiv_mul bin_size v = Raise e → e = TypeError.
Proof. destruct v; cbn; congruence. Qed.

(** The bins are computed unless some distance is a string. *)
Lemma mapM_floordiv_mul bin_size (l : list (gmap string cell)) :
  mapM (floordiv_mul bin_size) (at_col "distance_from_ego" <$> l) =
  if decide (Forall (λ r, MetricsSpec.is_text (at_col "distance_from_ego" r) = false) l)
  then Ok (MetricsSpec.bin_cell bin_size <$> l) else Raise TypeError.
Proof.
  destruct (decide _) as [Hall|Hsome].
  - apply mapM_Ok_Forall2. induction Hall as [|r l Hr _ IH]; cbn; constructor; [|done].
    by apply floordiv_mul_total.
  - destruct (mapM _ _) as [bins|e] eqn:Hm.
    + exfalso. apply Hsome. apply mapM_Ok_Forall2 in Hm. clear Hsome.
      revert bins Hm. induction l as [|r l IH]; intros bins;
        inversion 1 as [|? c ? bins' Hc Hbins]; subst; constructor; [|by eapply IH].
      by destruct (at_col "distance_from_ego" r).
    + apply mapM_Raise_Exists, Exists_exists in Hm as (v & _ & Hv).
      by rewrite (floordiv_mul_exn _ _ _ Hv).
Qed.

Lemma assign_distance_bin_eq self bin_size :
  assign_distance_bin self bin_size =
  if decide ("distance_from_ego" ∈ columns (data self)) then
    if decide (Forall (λ r, MetricsSpec.is_text (at_col "distance_from_ego" r) = false)
                      (rows (data self)))
    then Ok (MetricsSpec.with_bins self bin_size) else Raise TypeError
  else Raise KeyError.
Proof.
  unfold assign_distance_bin, getitem.
  destruct (decide ("distance_from_ego" ∈ _)); [|done]. rewrite bind_Ok.
  rewrite mapM_floordiv_mul. destruct (decide (Forall _ _)); [|done].
  rewrite bind_Ok. unfold MetricsSpec.with_bins, setitem. do 3 f_equal.
  apply (zip_with_insert_fmap "distance_bin" (MetricsSpec.bin_cell bin_size)).
Qed.

(** Either aggregation: the assignment, then the grouping on the new state. *)
Lemma aggregate_eq m self bin_size :
  MetricsSpec.aggregate m self bin_size =
  match assign_distance_bin self bin_size with
  | Raise e => (self, Raise e)
  | Ok self' =>
      (self', groupby_size_unstack (data self') "distance_bin" (MetricsSpec.by_column m))
  end.
Proof. by destruct m. Qed.

Lemma by_column_ne m : MetricsSpec.by_column m ≠ "distance_bin".
Proof. by destruct m. Qed.

Lemma at_col_with_bin c bin (r : gmap string cell) :
  at_col c (<["distance_bin" := bin]> r) =
  if decide (c = "distance_bin") then bin else at_col c r.
Proof.
  unfold at_col. destruct (decide (c = "distance_bin")) as [->|Hne].
  - by rewrite lookup_insert_eq.
  - by rewrite lookup_insert_ne.
Qed.

Lemma getitem_with_bins_other self bin_size c :
  c ≠ "distance_bin" →
  getitem (data (MetricsSpec.with_bins self bin_size)) c = getitem (data self) c.
Proof.
  intros Hne. unfold getitem, MetricsSpec.with_bins. cbn [data columns rows].
  assert (c ∈ (if decide ("distance_bin" ∈ columns (data self))
               then columns (data self) else columns (data self) ++ ["distance_bin"])
          ↔ c ∈ columns (data self)) as Hcols.
  { destruct (decide _); [done|].
    rewrite elem_of_app, list_elem_of_singleton. tauto. }
  destruct (decide (c ∈ columns (data self))) as [Hc|Hc].
  - rewrite decide_True by (by apply Hcols). f_equal.
    rewrite <- list_fmap_compose. apply list_fmap_ext. intros _ r _. cbn.
    by rewrite at_col_with_bin, decide_False.
  - by rewrite decide_False by (by rewrite Hcols).
Qed.

Lemma getitem_with_bins_bin self bin_size :
  getitem (data (MetricsSpec.with_bins self bin_size)) "distance_bin" =
  Ok (MetricsSpec.bin_cell bin_size <$> rows (data self)).
Proof.
  unfold getitem, MetricsSpec.with_bins. cbn [data columns rows].
  rewrite decide_True.
  - f_equal. rewrite <- list_fmap_compose. apply list_fmap_ext. intros _ r _. cbn.
    by rewrite at_col_with_bin, decide_True.
  - destruct (decide _); [done|]. apply elem_of_app. right. by left.
Qed.

End distance_bin.

(** *** Grouping by bin *)

Section groupby.
Import DatasetManager.

Lemma isna_false v : isna v = false ↔ v ≠ NaN.
Proof. unfold isna. by rewrite bool_decide_eq_false. Qed.

Lemma zip_fmap_same {A B C} (f : A → B) (g : A → C) (l : list A) :
  zip (f <$> l) (g <$> l) = (λ r, (f r, g r)) <$> l.
Proof. induction l as [|a l IH]; cbn; [done | by rewrite IH]. Qed.

Lemma group_keys_rows {A} (f g : A → cell) (l : list A) :
  group_keys (f <$> l) (g <$> l) =
  (λ r, (f r, g r)) <$> filter (λ r, f r ≠ NaN ∧ g r ≠ NaN) l.
Proof.
  unfold group_keys. rewrite zip_fmap_same.
  induction l as [|a l IH]; [done|].
  cbn [fmap list_fmap]. rewrite !filter_cons. cbn [fst snd].
  destruct (decide (isna (f a) = false ∧ isna (g a) = false)) as [Ha|Ha];
    rewrite !isna_false in Ha.
  - rewrite decide_True by done. cbn. by rewrite <- IH.
  - by rewrite decide_False by done.
Qed.

Lemma groupby_with_bins self bin_size by_col :
  by_col ≠ "distance_bin" →
  groupby_size_unstack (data (MetricsSpec.with_bins self bin_size)) "distance_bin" by_col
  = if decide (by_col ∈ columns (data self))
    then Ok (MetricsSpec.table_of (MetricsSpec.kept_keys self bin_size by_col))
    else Raise KeyError.
Proof.
  intros Hne. unfold groupby_size_unstack.
  rewrite getitem_with_bins_bin, bind_Ok, (getitem_with_bins_other _ _ _ Hne).
  unfold getitem. by destruct (decide _).
Qed.

Lemma elem_of_kept_keys self bin_size by_col k s :
  (k, s) ∈ MetricsSpec.kept_keys self bin_size by_col ↔
  k ≠ NaN ∧ s ≠ NaN ∧
  ∃ r, r ∈ rows (data self) ∧ MetricsSpec.bin_cell bin_size r = k ∧ at_col by_col r = s.
Proof.
  unfold MetricsSpec.kept_keys. rewrite group_keys_rows, list_elem_of_fmap. split.
  - intros (r & [= -> ->] & ([? ?] & ?)%list_elem_of_filter). eauto 10.
  - intros (Hk & Hs & r & Hin & <- & <-). exists r. split; [done|].
    apply list_elem_of_filter. done.
Qed.


Lemma elem_of_sorted_keys (l : list cell) k :
  k ∈ merge_sort cell_le (remove_dups l) ↔ k ∈ l.
Proof. by rewrite merge_sort_Permutation, elem_of_remove_dups. Qed.

Lemma NoDup_sorted_keys (l : list cell) : NoDup (merge_sort cell_le (remove_dups l)).
Proof. rewrite merge_sort_Permutation. apply NoDup_remove_dups. Qed.




(** The result of an aggregation, whatever the state it leaves. *)
Lemma aggregate_result m self bin_size :
  (MetricsSpec.aggregate m self bin_size).2 =
  if decide ("distance_from_ego" ∈ columns (data self)) then
    if decide (Forall (λ r, MetricsSpec.is_text (at_col "distance_from_ego" r) = false)
                      (rows (data self)))
    then
      if decide (MetricsSpec.by_column m ∈ columns (data self))
      then Ok (MetricsSpec.table_of
                 (MetricsSpec.kept_keys self bin_size (MetricsSpec.by_column m)))
      else Raise KeyError
    else Raise TypeError
  else Raise KeyError.
Proof.
  rewrite aggregate_eq, assign_distance_bin_eq.
  destruct (decide ("distance_from_ego" ∈ _)); [|done].
  destruct (decide (Forall _ _)); [|done].
  cbn [snd]. apply groupby_with_bins, by_column_ne.
Qed.

Lemma aggregate_state m self bin_size :
  (MetricsSpec.aggregate m self bin_size).1 = self ∨
  (MetricsSpec.aggregate m self bin_size).1 = MetricsSpec.with_bins self bin_size.
Proof.
  rewrite aggregate_eq, assign_distance_bin_eq.
  repeat (destruct (decide _)); cbn; tauto.
Qed.

Lemma aggregate_Ok_state m self bin_size g :
  (MetricsSpec.aggregate m self bin_size).2 = Ok g →
  (MetricsSpec.aggregate m self bin_size).1 = MetricsSpec.with_bins self bin_size.
Proof.
  rewrite aggregate_eq, assign_distance_bin_eq.
  repeat (destruct (decide _)); cbn; done.
Qed.

End groupby.

Section bins.
Import DatasetManager.


Lemma Qc_pos_ne_0 (q : Qc) : (0 < q)%Qc → q ≠ 0%Qc.
Proof. intros Hlt ->. by apply (Qclt_not_eq _ _ Hlt). Qed.

End bins.



(** *** What an aggregation leaves unchanged *)

Section frame.
Import DatasetManager.

Lemma only_distance_bin_differs_refl self :
  MetricsSpec.only_distance_bin_differs self self.
Proof.
  split_and!; [done | done |].
  by apply Forall_Forall2_diag, list.Forall_forall.
Qed.

Lemma only_distance_bin_differs_trans self1 self2 self3 :
  MetricsSpec.only_distance_bin_differs self1 self2 →
  MetricsSpec.only_distance_bin_differs self2 self3 →
  MetricsSpec.only_distance_bin_differs self1 self3.
Proof.
  intros (Hm12 & Hc12 & Hr12) (Hm23 & Hc23 & Hr23). split_and!.
  - congruence.
  - intros c Hc. by rewrite (Hc23 c Hc), (Hc12 c Hc).
  - eapply Forall2_trans; [|exact Hr12|exact Hr23].
    intros r1 r2 r3 H12 H23 c Hc. by rewrite (H23 c Hc), (H12 c Hc).
Qed.

Lemma only_distance_bin_differs_with_bins self bin_size :
  MetricsSpec.only_distance_bin_differs self (MetricsSpec.with_bins self bin_size).
Proof.
  unfold MetricsSpec.with_bins. split_and!; cbn [data columns rows category_mapping].
  - done.
  - intros c Hc. destruct (decide _); [done|].
    rewrite elem_of_app, list_elem_of_singleton. tauto.
  - apply Forall2_fmap_r, Forall_Forall2_diag, list.Forall_forall.
    intros r _ c Hc. unfold compose. by rewrite lookup_insert_ne.
Qed.

Lemma only_distance_bin_differs_aggregate m self bin_size :
  MetricsSpec.only_distance_bin_differs self (MetricsSpec.aggregate m self bin_size).1.
Proof.
  destruct (aggregate_state m self bin_size) as [-> | ->].
  - apply only_distance_bin_differs_refl.
  - apply only_distance_bin_differs_with_bins.
Qed.

Lemma only_distance_bin_differs_run_calls calls self :
  MetricsSpec.only_distance_bin_differs self (MetricsSpec.run_calls calls self).
Proof.
  unfold MetricsSpec.run_calls. revert self.
  induction calls as [|[m bin_size] calls IH]; intros self; cbn [foldl fst snd].
  - apply only_distance_bin_differs_refl.
  - eapply only_distance_bin_differs_trans; [|apply IH].
    apply only_distance_bin_differs_aggregate.
Qed.

Lemma only_distance_bin_differs_at_col self self' c :
  MetricsSpec.only_distance_bin_differs self self' → c ≠ "distance_bin" →
  at_col c <$> rows (data self') = at_col c <$> rows (data self).
Proof.
  intros (_ & _ & Hrows) Hc.
  induction Hrows as [|r r' l l' Hr _ IH]; [done|].
  cbn. unfold at_col at 1 3. by rewrite (Hr c Hc), IH.
Qed.

Lemma only_distance_bin_differs_getitem self self' c :
  MetricsSpec.only_distance_bin_differs self self' → c ≠ "distance_bin" →
  getitem (data self') c = getitem (data self) c.
Proof.
  intros Hd Hc. unfold getitem.
  rewrite (only_distance_bin_differs_at_col _ _ _ Hd Hc).
  destruct Hd as (_ & Hcols & _).
  destruct (decide (c ∈ columns (data self))) as [Hin|Hin].
  - by rewrite decide_True by (by apply Hcols).
  - by rewrite decide_False by (by rewrite Hcols).
Qed.

Lemma count_by_unchanged self self' category s :
  MetricsSpec.only_distance_bin_differs self self' →
  MetricsSpec.count_by self' category s = MetricsSpec.count_by self category s.
Proof.
  intros (_ & _ & Hrows). unfold MetricsSpec.count_by.
  induction Hrows as [|r r' l l' Hr _ IH]; [done|].
  rewrite !filter_cons.
  assert (at_col "general_category" r' = at_col "general_category" r) as ->
    by (unfold at_col; by rewrite Hr).
  assert (at_col "status" r' = at_col "status" r) as ->
    by (unfold at_col; by rewrite Hr).
  destruct (decide _); cbn [length]; by rewrite IH.
Qed.

Lemma calculate_category_metrics_unchanged self self' category :
  MetricsSpec.only_distance_bin_differs self self' →
  calculate_category_metrics self' category = calculate_category_metrics self category.
Proof.
  intros Hd. rewrite !calculate_category_metrics_counts.
  rewrite !(count_by_unchanged _ _ _ _ Hd).
  destruct Hd as (_ & Hcols & _).
  destruct (decide ("general_category" ∈ columns (data self))) as [Hg|Hg].
  - rewrite decide_True by (by apply Hcols).
    destruct (decide ("status" ∈ columns (data self))) as [Hs|Hs].
    + by rewrite decide_True by (by apply Hcols).
    + by rewrite decide_False by (by rewrite Hcols).
  - by rewrite decide_False by (by rewrite Hcols).
Qed.

Lemma foldM_ext {A B} (f g : A → B → res A) acc l :
  (∀ acc x, f acc x = g acc x) → foldM f acc l = foldM g acc l.
Proof.
  intros Hfg. revert acc. induction l as [|x l IH]; intros acc; [done|].
  cbn [foldM]. rewrite Hfg. destruct (g acc x); [|done]. rewrite !bind_Ok. apply IH.
Qed.

Lemma calculate_metrics_unchanged self self' :
  MetricsSpec.only_distance_bin_differs self self' →
  calculate_metrics self' = calculate_metrics self.
Proof.
  intros Hd. unfold calculate_metrics.
  rewrite (only_distance_bin_differs_getitem _ _ _ Hd) by done.
  destruct (getitem (data self) "general_category") as [general|e]; [|done].
  rewrite !bind_Ok. apply foldM_ext. intros metrics category.
  by rewrite (calculate_category_metrics_unchanged _ _ _ Hd).
Qed.

End frame.

(** C10.  After any sequence of distance aggregations, by status or by
    category and with any bin sizes, the stored state differs from the one
    before only in the column [distance_bin]: the mapping is the same, every
    other column is present or absent as before and holds the same cells,
    the number of rows and the [general_category] of every row are the same,
    and [calculate_metrics] returns the same result; in particular after a
    single call. *)
Theorem aggregation_frame_spec :
  ∀ calls self,
    let self' := MetricsSpec.run_calls calls self in
    MetricsSpec.only_distance_bin_differs self self' ∧
    length (DatasetManager.rows (DatasetManager.data self'))
      = length (DatasetManager.rows (DatasetManager.data self)) ∧
    (∀ c, c ≠ "distance_bin" →
          DatasetManager.getitem (DatasetManager.data self') c
            = DatasetManager.getitem (DatasetManager.data self) c) ∧
    (∀ c, c ∈ DatasetManager.columns (DatasetManager.data self') →
          c ∈ DatasetManager.columns (DatasetManager.data self) ∨ c = "distance_bin") ∧
    DatasetManager.at_col "general_category"
        <$> DatasetManager.rows (DatasetManager.data self')
      = DatasetManager.at_col "general_category"
          <$> DatasetManager.rows (DatasetManager.data self) ∧
    DatasetManager.calculate_metrics self' = DatasetManager.calculate_metrics self ∧
    (∀ m bin_size,
       DatasetManager.calculate_metrics (MetricsSpec.aggregate m self bin_size).1
         = DatasetManager.calculate_metrics self ∧
       MetricsSpec.only_distance_bin_differs self
         (MetricsSpec.aggregate m self bin_size).1).
Proof.
  intros calls self. cbv zeta.
  pose proof (only_distance_bin_differs_run_calls calls self) as Hd.
  split_and!.
  - exact Hd.
  - destruct Hd as (_ & _ & Hrows). symmetry. by eapply Forall2_length.
  - intros c Hc. by apply only_distance_bin_differs_getitem.
  - intros c Hin. destruct (decide (c = "distance_bin")) as [->|Hc]; [by right|].
    left. destruct Hd as (_ & Hcols & _). by apply Hcols.
  - by apply only_distance_bin_differs_at_col.
  - by apply calculate_metrics_unchanged.
  - intros m bin_size.
    pose proof (only_distance_bin_differs_aggregate m self bin_size) as Hd1.
    split; [by apply calculate_metrics_unchanged | exact Hd1].
Qed.

Lemma aggregation_frame_spec_witness :
  DatasetManager.getitem
    (DatasetManager.data
       (MetricsSpec.run_calls
          [(MetricsSpec.by_status, Q2Qc 10); (MetricsSpec.by_category, Q2Qc 5)]
          MetricsSample.manager1))
    "label"
  = DatasetManager.getitem (DatasetManager.data MetricsSample.manager1) "label".
Proof.
  apply (aggregation_frame_spec
           [(MetricsSpec.by_status, Q2Qc 10); (MetricsSpec.by_category, Q2Qc 5)]
           MetricsSample.manager1).
  discriminate.
Defined.

(** ** Further properties of the code *)

(** *** Safe lookup *)

(** X1.  [safe_get] never raises: on a dict it returns the value bound to
    the key, or the default when the key is absent (an empty dict included),
    and on anything that is no dict, [None] included, the default. *)
Theorem safe_get_spec :
  ∀ key default,
    (∀ d, ObjectExtractor.safe_get (VDict d) key default
          = Ok (from_option id default (dict_lookup key d))) ∧
    (∀ obj, is_dict obj = false →
            ObjectExtractor.safe_get obj key default = Ok default).
Proof.
  intros key default. split.
  - intros [|b d]; [reflexivity|]. reflexivity.
  - intros obj Hobj. unfold ObjectExtractor.safe_get.
    by rewrite Hobj, andb_false_r.
Qed.

Lemma safe_get_spec_witness :
  ObjectExtractor.safe_get (VStr "position") "x" VNone = Ok VNone ∧
  ObjectExtractor.safe_get VNone "x" (VInt 0) = Ok (VInt 0).
Proof.
  split; by apply (proj2 (safe_get_spec "x" _)).
Defined.

(** *** Reading the folder *)

Section folder.
Import JSONLProcessor.

Lemma endswith_suffix s suffix :
  endswith s suffix = true ↔ ∃ p, s = String.app p suffix.
Proof.
  induction s as [|a s IH]; cbn [endswith].
  - rewrite orb_false_r, String.eqb_eq. split.
    + intros <-. by exists "".
    + intros [[|b p] Hp]; [done | discriminate].
  - rewrite orb_true_iff, String.eqb_eq, IH. split.
    + intros [<- | [p ->]]; [by exists "" | by exists (String a p)].
    + intros [[|b p] Hp]; [by left|]. right. exists p. by injection Hp.
Qed.

Lemma read_file_records read_lines loads all_data file_name :
  read_file read_lines loads all_data file_name =
  Ok (all_data ++ Extra.file_records read_lines loads file_name).
Proof.
  unfold read_file, read_records, Extra.file_records.
  destruct (endswith file_name ".jsonl"); [|by rewrite app_nil_r].
  destruct (read_lines file_name) as [lines|e]; [|by rewrite app_nil_r].
  rewrite bind_Ok. destruct (mapM loads lines); [done | by rewrite app_nil_r].
Qed.

Lemma read_loop_records read_lines loads all_data files :
  read_loop read_lines loads all_data files =
  all_data ++ concat (Extra.file_records read_lines loads <$> files).
Proof.
  revert all_data. induction files as [|file_name files IH]; intros all_data.
  - cbn. by rewrite app_nil_r.
  - cbn [read_loop]. rewrite read_file_records, IH. cbn. by rewrite app_assoc.
Qed.

End folder.

(** X2.  [read_jsonl_files] raises only what [os.listdir] raises, which no
    handler catches; once the listing succeeds it returns, in the order of
    the listing, the records of the listed files, whatever the files hold. *)
Theorem read_jsonl_files_spec :
  ∀ read_lines loads,
    (∀ e, JSONLProcessor.read_jsonl_files (Raise e) read_lines loads = Raise e) ∧
    (∀ files,
       JSONLProcessor.read_jsonl_files (Ok files) read_lines loads =
       Ok (concat (Extra.file_records read_lines loads <$> files))) ∧
    (∀ files files',
       JSONLProcessor.read_jsonl_files (Ok (files ++ files')) read_lines loads =
       (data ← JSONLProcessor.read_jsonl_files (Ok files) read_lines loads;
        data' ← JSONLProcessor.read_jsonl_files (Ok files') read_lines loads;
        Ok (data ++ data'))).
Proof.
  intros read_lines loads.
  assert (∀ files,
            JSONLProcessor.read_jsonl_files (Ok files) read_lines loads =
            Ok (concat (Extra.file_records read_lines loads <$> files))) as Hfiles.
  { intros files. unfold JSONLProcessor.read_jsonl_files.
    by rewrite bind_Ok, read_loop_records. }
  split_and!; [done | done |].
  intros files files'. rewrite !Hfiles, !bind_Ok. by rewrite fmap_app, concat_app.
Qed.

Lemma file_records_cases :
  ∀ read_lines loads file_name,
    ((¬ ∃ p, file_name = String.app p ".jsonl") →
     Extra.file_records read_lines loads file_name = []) ∧
    (∀ e, read_lines file_name = Raise e →
          Extra.file_records read_lines loads file_name = []) ∧
    (∀ lines,
       read_lines file_name = Ok lines →
       Exists (λ line, ∃ e, loads line = Raise e) lines →
       Extra.file_records read_lines loads file_name = []) ∧
    (∀ p lines records,
       file_name = String.app p ".jsonl" →
       read_lines file_name = Ok lines →
       Forall2 (λ line record, loads line = Ok record) lines records →
       Extra.file_records read_lines loads file_name = records).
Proof.
  intros read_lines loads file_name. unfold Extra.file_records. split_and!.
  - intros Hname. destruct (JSONLProcessor.endswith _ _) eqn:He; [|done].
    destruct Hname. by apply endswith_suffix.
  - intros e ->. by destruct (JSONLProcessor.endswith _ _).
  - intros lines -> Hbad. destruct (JSONLProcessor.endswith _ _); [|done].
    by destruct (mapM_Exists_Raise _ _ Hbad) as [e ->].
  - intros p lines records Hname -> Hlines.
    rewrite (proj2 (endswith_suffix file_name ".jsonl")) by eauto.
    apply mapM_Ok_Forall2 in Hlines. by rewrite Hlines.
Qed.

Lemma read_jsonl_files_Ok read_lines loads files :
  JSONLProcessor.read_jsonl_files (Ok files) read_lines loads =
  Ok (concat (Extra.file_records read_lines loads <$> files)).
Proof.
  unfold JSONLProcessor.read_jsonl_files. by rewrite bind_Ok, read_loop_records.
Qed.

Lemma read_jsonl_files_insert read_lines loads files file_name files' :
  JSONLProcessor.read_jsonl_files (Ok (files ++ file_name :: files')) read_lines loads =
  (data ← JSONLProcessor.read_jsonl_files (Ok files) read_lines loads;
   data' ← JSONLProcessor.read_jsonl_files (Ok files') read_lines loads;
   Ok (data ++ Extra.file_records read_lines loads file_name ++ data')).
Proof.
  rewrite !read_jsonl_files_Ok, !bind_Ok, fmap_app, fmap_cons, concat_app. done.
Qed.

Lemma read_jsonl_files_skip read_lines loads files file_name files' :
  Extra.file_records read_lines loads file_name = [] →
  JSONLProcessor.read_jsonl_files (Ok (files ++ file_name :: files')) read_lines loads =
  JSONLProcessor.read_jsonl_files (Ok (files ++ files')) read_lines loads.
Proof.
  intros Hnone.
  by rewrite !read_jsonl_files_Ok, !fmap_app, fmap_cons, !concat_app, Hnone.
Qed.

(** X3.  What one listed name adds to the result of [read_jsonl_files],
    wherever it stands in the listing.  A name that does not end in
    ".jsonl", a file that cannot be opened or read, and a file with a single
    line that does not parse add nothing and raise nothing: the result is
    the one of the listing without the name, so that the good lines of a
    file with one bad line are lost.  A file whose name ends in ".jsonl"
    and whose lines all parse adds its parsed lines, in order, between the
    records of the names before and those of the names after. *)
Theorem read_jsonl_files_per_file :
  ∀ read_lines loads files file_name files',
    ((¬ ∃ p, file_name = String.app p ".jsonl") →
     JSONLProcessor.read_jsonl_files (Ok (files ++ file_name :: files'))
       read_lines loads
     = JSONLProcessor.read_jsonl_files (Ok (files ++ files')) read_lines loads) ∧
    (∀ e, read_lines file_name = Raise e →
          JSONLProcessor.read_jsonl_files (Ok (files ++ file_name :: files'))
            read_lines loads
          = JSONLProcessor.read_jsonl_files (Ok (files ++ files')) read_lines loads) ∧
    (∀ lines,
       read_lines file_name = Ok lines →
       Exists (λ line, ∃ e, loads line = Raise e) lines →
       JSONLProcessor.read_jsonl_files (Ok (files ++ file_name :: files'))
         read_lines loads
       = JSONLProcessor.read_jsonl_files (Ok (files ++ files')) read_lines loads) ∧
    (∀ p lines records,
       file_name = String.app p ".jsonl" →
       read_lines file_name = Ok lines →
       Forall2 (λ line record, loads line = Ok record) lines records →
       JSONLProcessor.read_jsonl_files (Ok (files ++ file_name :: files'))
         read_lines loads
       = (data ← JSONLProcessor.read_jsonl_files (Ok files) read_lines loads;
          data' ← JSONLProcessor.read_jsonl_files (Ok files') read_lines loads;
          Ok (data ++ records ++ data'))).
Proof.
  intros read_lines loads files file_name files'.
  destruct (file_records_cases read_lines loads file_name)
    as (Hname & Hread & Hline & Hgood).
  split_and!.
  - intros Hp. by apply read_jsonl_files_skip, Hname.
  - intros e He. by apply read_jsonl_files_skip, (Hread e).
  - intros lines Hlines Hbad. by apply read_jsonl_files_skip, (Hline lines).
  - intros p lines records Hp Hlines Hrecords.
    by rewrite read_jsonl_files_insert, (Hgood p lines records).
Qed.

Lemma read_jsonl_files_per_file_witness :
  JSONLProcessor.read_jsonl_files (Ok (["a.jsonl"] ++ "notes.txt" :: ["d.jsonl"]))
      ExtraSample.read_lines ExtraSample.loads
    = JSONLProcessor.read_jsonl_files (Ok (["a.jsonl"] ++ ["d.jsonl"]))
        ExtraSample.read_lines ExtraSample.loads ∧
  JSONLProcessor.read_jsonl_files (Ok (["a.jsonl"] ++ "c.jsonl" :: ["d.jsonl"]))
      ExtraSample.read_lines ExtraSample.loads
    = JSONLProcessor.read_jsonl_files (Ok (["a.jsonl"] ++ ["d.jsonl"]))
        ExtraSample.read_lines ExtraSample.loads ∧
  JSONLProcessor.read_jsonl_files (Ok (["a.jsonl"] ++ "b.jsonl" :: ["d.jsonl"]))
      ExtraSample.read_lines ExtraSample.loads
    = JSONLProcessor.read_jsonl_files (Ok (["a.jsonl"] ++ ["d.jsonl"]))
        ExtraSample.read_lines ExtraSample.loads ∧
  JSONLProcessor.read_jsonl_files (Ok ([] ++ "d.jsonl" :: []))
      ExtraSample.read_lines ExtraSample.loads
    = (data ← JSONLProcessor.read_jsonl_files (Ok []) ExtraSample.read_lines
                ExtraSample.loads;
       data' ← JSONLProcessor.read_jsonl_files (Ok []) ExtraSample.read_lines
                 ExtraSample.loads;
       Ok (data ++ [VFloat (float_of_Z 6)] ++ data')).
Proof.
  split_and!.
  - apply (proj1 (read_jsonl_files_per_file ExtraSample.read_lines ExtraSample.loads
                    ["a.jsonl"] "notes.txt" ["d.jsonl"])).
    intros Hp. apply endswith_suffix in Hp. discriminate Hp.
  - by apply (proj1 (proj2 (read_jsonl_files_per_file ExtraSample.read_lines
                              ExtraSample.loads ["a.jsonl"] "c.jsonl" ["d.jsonl"]))
                KeyError).
  - apply (proj1 (proj2 (proj2 (read_jsonl_files_per_file ExtraSample.read_lines
                                  ExtraSample.loads ["a.jsonl"] "b.jsonl" ["d.jsonl"])))
             ["4"; "oops"; "5"] eq_refl).
    right. left. by exists ValueError.
  - apply (proj2 (proj2 (proj2 (read_jsonl_files_per_file ExtraSample.read_lines
                                  ExtraSample.loads [] "d.jsonl" [])))
             "d" ["6"] _ eq_refl eq_refl).
    repeat constructor; closed_eq.
Defined.

(** *** Extraction over several records *)

Lemma mapM_app {A B} (f : A → res B) (l1 l2 : list A) :
  mapM f (l1 ++ l2) = (k1 ← mapM f l1; k2 ← mapM f l2; Ok (k1 ++ k2)).
Proof.
  induction l1 as [|x l1 IH].
  - cbn [app]. change (mapM f []) with (Ok (@nil B)). rewrite bind_Ok.
    by destruct (mapM f l2).
  - cbn [app]. rewrite !mapM_cons, IH. destruct (f x) as [y|e]; [|done].
    rewrite !bind_Ok. destruct (mapM f l1) as [k1|e]; [|done].
    rewrite !bind_Ok. by destruct (mapM f l2).
Qed.

Lemma extract_objects_app data data' :
  ObjectExtractor.extract_objects (data ++ data') =
  (rows ← ObjectExtractor.extract_objects data;
   rows' ← ObjectExtractor.extract_objects data';
   Ok (rows ++ rows')).
Proof.
  rewrite !extract_objects_concat, mapM_app.
  destruct (mapM _ data) as [news|e]; [|done]. rewrite !bind_Ok.
  destruct (mapM _ data') as [news'|e]; [|done]. rewrite !bind_Ok.
  by rewrite concat_app.
Qed.

Lemma extract_objects_without_frame record :
  Extra.without_frame record → ObjectExtractor.extract_objects [record] = Ok [].
Proof.
  intros (frame & Hframe & Hfalsy). unfold ObjectExtractor.extract_objects.
  cbn [foldM]. by rewrite (extract_record_falsy _ _ _ Hframe Hfalsy).
Qed.

(** X4.  Extraction works record by record: the rows of two inputs put end
    to end are the rows of the first followed by the rows of the second,
    and the call raises exactly when one of the two raises (the exception
    of the first, if it raises). *)
Theorem extract_objects_app_spec :
  ∀ data data',
    ObjectExtractor.extract_objects (data ++ data') =
    (rows ← ObjectExtractor.extract_objects data;
     rows' ← ObjectExtractor.extract_objects data';
     Ok (rows ++ rows')).
Proof. apply extract_objects_app. Qed.

(** X5.  A record whose [Frame] is missing, null or empty contributes no
    row and no exception, whatever else it holds: removing it from the
    input does not change the result of [extract_objects]. *)
Theorem extract_objects_skips_record_without_frame :
  ∀ before record after,
    Extra.without_frame record →
    ObjectExtractor.extract_objects (before ++ record :: after) =
    ObjectExtractor.extract_objects (before ++ after).
Proof.
  intros before record after Hrecord.
  change (record :: after) with ([record] ++ after).
  rewrite !extract_objects_app, (extract_objects_without_frame _ Hrecord).
  destruct (ObjectExtractor.extract_objects before) as [rows|e]; [|done].
  rewrite !bind_Ok. by destruct (ObjectExtractor.extract_objects after).
Qed.

Lemma extract_objects_skips_record_without_frame_witness :
  ObjectExtractor.extract_objects
    ([Sample.record] ++ VDict [("Frame", VNone); ("Result", VInt 3)] :: [Sample.record])
  = ObjectExtractor.extract_objects ([Sample.record] ++ [Sample.record]).
Proof.
  apply extract_objects_skips_record_without_frame.
  exists VNone. by split.
Defined.

(** *** The fields shared by the rows of a record *)

Section shared.
Import ObjectExtractor.

Lemma object_row_shared stamp success obj row :
  object_row stamp success obj = Ok row →
  dict_lookup "timestamp" row = Some stamp ∧
  ∃ b, get_success success = Ok b ∧
       dict_lookup "frame_success" row = Some (VBool b).
Proof.
  unfold object_row. intros H.
  do 25 (apply bind_Ok_inv in H as (? & _ & H)).
  apply bind_Ok_inv in H as (b & Hb & [= <-]).
  split; [reflexivity|]. exists b. split; [done | reflexivity].
Qed.

End shared.

(** X6.  The object rows of one record all carry the same timestamp, the
    record's [Stamp.ROS], and the same [frame_success], the coercion of the
    record's [Result.Success]: the two fields are read once per record, not
    per object. *)
Theorem object_rows_share_stamp_and_success :
  ∀ record frame acc out,
    get record "Frame" (VDict []) = Ok frame → truthy frame = true →
    ObjectExtractor.extract_record acc record = Ok out →
    ∃ stamp success objects ego rows,
      Spec.record_parts record = Ok (frame, stamp, success, objects) ∧
      out = acc ++ ego :: rows ∧
      Forall (λ row, dict_lookup "timestamp" row = Some stamp ∧
                     ∃ b, ObjectExtractor.get_success success = Ok b ∧
                          dict_lookup "frame_success" row = Some (VBool b))
             rows.
Proof.
  intros record frame acc out Hframe Htrue Hout.
  destruct (extract_record_Ok _ _ _ _ Hframe Htrue Hout)
    as (stamp & success & objects & ego & objs & rows & Hparts & _ & _ & Hrows & ->).
  exists stamp, success, objects, ego, rows. split_and!; [done | done |].
  clear Hparts Hout. induction Hrows as [|obj row objs rows Hrow _ IH]; constructor;
    [by eapply object_row_shared | done].
Qed.

Lemma object_rows_share_stamp_and_success_witness :
  ∃ ego rows,
    ObjectExtractor.extract_record [] Sample.record = Ok ([] ++ ego :: rows) ∧
    Forall (λ row, dict_lookup "timestamp" row = Some (Sample.num 1606799233.3)) rows.
Proof.
  destruct (ObjectExtractor.extract_record [] Sample.record) as [out|e] eqn:Hout;
    [|vm_compute in Hout; discriminate Hout].
  destruct (object_rows_share_stamp_and_success Sample.record Sample.frame [] out
              eq_refl eq_refl Hout)
    as (stamp & success & objects & ego & rows & Hparts & -> & Hrows).
  assert (stamp = Sample.num 1606799233.3) as ->.
  { change (Spec.record_parts Sample.record)
      with (Ok (Sample.frame, Sample.num 1606799233.3, VStr "True", VList [Sample.car]))
      in Hparts.
    congruence. }
  exists ego, rows. split; [reflexivity|].
  clear Hparts Hout. induction Hrows as [|row rows [Hrow _] _ IH]; constructor;
    [exact Hrow | exact IH].
Defined.

(** *** A success indicator that is a number *)

Lemma bind_then_Raise {A B} (m : res A) (k : A → res B) e :
  (∃ a, m = Ok a) → (∀ a, k a = Raise e) → (m ≫= k) = Raise e.
Proof. intros [a ->] Hk. apply Hk. Qed.

(** X7.  A success indicator that is neither [None], a boolean nor a string
    makes the extraction raise [AttributeError] as soon as the record has an
    object that is a dict, and goes unnoticed when the record has no object:
    the record then still yields its ego row. *)
Theorem numeric_success_spec :
  ∀ record frame stamp success objects ego acc,
    Spec.record_parts record = Ok (frame, stamp, success, objects) →
    truthy frame = true →
    ObjectExtractor.parse_ego frame = Ok ego →
    Spec.success_ok success = false →
    (iter objects = Ok [] →
     ObjectExtractor.extract_record acc record = Ok (acc ++ [ego])) ∧
    (∀ d objs, iter objects = Ok (VDict d :: objs) →
               ObjectExtractor.extract_record acc record = Raise AttributeError).
Proof.
  intros record frame stamp success objects ego acc Hparts Hframe Hego Hsuccess.
  rewrite (extract_record_parts _ _ _ _ _ _ Hparts Hframe), Hego, bind_Ok.
  split.
  - by intros ->.
  - intros d objs ->. rewrite bind_Ok, mapM_cons.
    assert (ObjectExtractor.object_row stamp success (VDict d) = Raise AttributeError)
      as ->; [|done].
    unfold ObjectExtractor.object_row.
    repeat (apply bind_then_Raise;
            [ first [ by eexists
                    | apply sub_get_total
                    | match goal with
                      | |- ∃ _, ObjectExtractor.convert_to_list ?v = _ =>
                          destruct (convert_to_list_total v) as [? ->]; by eexists
                      end ]
            | intros ? ]).
    by destruct success.
Qed.

Lemma numeric_success_spec_witness :
  ObjectExtractor.extract_record [] (ExtraSample.record_with_numeric_success [])
    = Ok ([] ++ [Sample.ego_row]) ∧
  ObjectExtractor.extract_record []
    (ExtraSample.record_with_numeric_success [VDict [("status", VStr "TP")]])
    = Raise AttributeError.
Proof.
  split.
  - apply (proj1 (numeric_success_spec (ExtraSample.record_with_numeric_success [])
             (VDict [("Ego", Sample.ego); ("criteria0", VDict [("Objects", VList [])])])
             VNone (VInt 1) (VList []) Sample.ego_row []
             eq_refl eq_refl ltac:(closed_eq) eq_refl)).
    reflexivity.
  - apply (proj2 (numeric_success_spec
             (ExtraSample.record_with_numeric_success [VDict [("status", VStr "TP")]])
             (VDict [("Ego", Sample.ego);
                     ("criteria0",
                      VDict [("Objects", VList [VDict [("status", VStr "TP")]])])])
             VNone (VInt 1) (VList [VDict [("status", VStr "TP")]]) Sample.ego_row []
             eq_refl eq_refl ltac:(closed_eq) eq_refl)
             [("status", VStr "TP")] []).
    reflexivity.
Defined.

(** *** The size of a converted list *)

Lemma split_go_length c cur s :
  length (split_go c cur s) = S (Extra.count_char c s).
Proof.
  revert cur. induction s as [|a s IH]; intros cur; cbn [split_go Extra.count_char].
  - done.
  - destruct (Ascii.eqb a c); cbn; by rewrite IH.
Qed.

(** X8.  When [convert_to_list] turns a string into a non-empty list, the
    list has one float per comma-separated piece of the string, that is
    one more than the string has commas; no piece is dropped or merged. *)
Theorem convert_to_list_length :
  ∀ s l,
    ObjectExtractor.convert_to_list (VStr s) = Ok (VList l) →
    l = [] ∨
    (length l = S (Extra.count_char "," s) ∧ Forall (λ v, ∃ f, v = VFloat f) l).
Proof.
  intros s l. rewrite convert_to_list_str.
  destruct (mapM _ _) as [covs|e] eqn:Hm; [|intros [= <-]; by left].
  intros [= <-]. right. split.
  - apply mapM_Ok_Forall2, Forall2_length in Hm. rewrite length_fmap, <- Hm.
    unfold split. rewrite split_go_length. f_equal.
    unfold Spec.without_brackets. clear Hm.
    induction s as [|a s IH]; [done|].
    cbn [list_ascii_of_string Extra.count_char]. rewrite filter_cons.
    destruct (decide (a ≠ "["%char ∧ a ≠ "]"%char)) as [Ha|Ha].
    + cbn [string_of_list_ascii Extra.count_char]. by rewrite IH.
    + rewrite IH. destruct (Ascii.eqb_spec a ","); [|done].
      subst a. destruct Ha. by split.
  - apply Forall_fmap, list.Forall_forall. intros f _. by exists f.
Qed.

Lemma convert_to_list_length_witness :
  ∃ l, ObjectExtractor.convert_to_list (VStr "[1.0, 2.5, 3]") = Ok (VList l) ∧
       (l = [] ∨ (length l = 3%nat ∧ Forall (λ v, ∃ f, v = VFloat f) l)).
Proof.
  destruct (convert_to_list_total (VStr "[1.0, 2.5, 3]")) as [l Hl].
  exists l. split; [exact Hl|].
  exact (convert_to_list_length "[1.0, 2.5, 3]" l Hl).
Defined.

(** *** The table of the extracted rows *)

Section table.
Import ObjectExtractor.

Lemma extract_objects_row_keys data out :
  extract_objects data = Ok out →
  Forall (λ d, d = [] ∨ keys d = Spec.ego_columns ∨ keys d = Spec.object_columns) out.
Proof.
  rewrite extract_objects_concat. intros (news & Hnews & [= <-])%bind_Ok_inv.
  apply mapM_Ok_Forall2 in Hnews. apply Forall_concat.
  induction Hnews as [|record new data news Hnew _ IH]; constructor; [|done].
  destruct (get record "Frame" (VDict [])) as [frame|e] eqn:Hframe;
    [|unfold extract_record in Hnew; by rewrite Hframe in Hnew].
  destruct (truthy frame) eqn:Htruthy.
  - destruct (extract_record_Ok _ _ _ _ Hframe Htruthy Hnew)
      as (stamp & success & objects & ego & objs & rows & _ & Hego & _ & Hrows & ->).
    cbn [app]. constructor.
    + destruct (parse_ego_keys _ _ Hego); tauto.
    + clear Hnew. induction Hrows as [|obj row objs rows Hrow _ IHrows]; constructor;
        [|done]. right. right. by eapply object_row_keys.
  - rewrite (extract_record_falsy _ _ _ Hframe Htruthy) in Hnew.
    injection Hnew as <-. constructor.
Qed.

Lemma elem_of_concat {A} (x : A) (ls : list (list A)) :
  x ∈ concat ls ↔ ∃ l, x ∈ l ∧ l ∈ ls.
Proof.
  induction ls as [|l ls IH]; cbn [concat].
  - split; [by intros ?%elem_of_nil | by intros (? & _ & ?%elem_of_nil)].
  - rewrite elem_of_app, IH. split.
    + intros [?|(l' & ? & ?)]; [exists l; split; [done | by left]|].
      exists l'. split; [done | by right].
    + intros (l' & ? & [->|?]%elem_of_cons); [by left|]. right. by exists l'.
Qed.

Lemma elem_of_DataFrame_columns objects c :
  c ∈ columns (DataFrame_of_dicts objects) ↔ ∃ d, d ∈ objects ∧ c ∈ keys d.
Proof.
  unfold DataFrame_of_dicts. cbn [columns].
  rewrite elem_of_unique, elem_of_concat. split.
  - intros (ks & Hc & (d & -> & Hd)%list_elem_of_fmap). by exists d.
  - intros (d & Hd & Hc). exists (keys d). split; [done|].
    apply list_elem_of_fmap. by exists d.
Qed.

Lemma dict_lookup_absent {A} (d : list (string * A)) c :
  c ∉ keys d → dict_lookup c d = None.
Proof.
  induction d as [|[k v] d IH]; [done|].
  unfold keys. cbn [fmap list_fmap fst dict_lookup]. intros Hc.
  destruct (String.eqb_spec k c) as [->|Hne]; [destruct Hc; by left|].
  apply IH. intros Hin. destruct Hc. by right.
Qed.

Lemma dict_lookup_tabulated {A} (f : string → A) cols c :
  c ∈ cols → dict_lookup c ((λ c, (c, f c)) <$> cols) = Some (f c).
Proof.
  induction cols as [|c' cols IH]; [by intros ?%elem_of_nil|].
  cbn [fmap list_fmap dict_lookup]. destruct (String.eqb_spec c' c) as [->|Hne].
  - done.
  - intros [?|?]%elem_of_cons; [congruence | by apply IH].
Qed.

End table.

(** X9.  The table that [process] builds from the records has one line per
    extracted dict, in order, and columns without repetition that are all
    among the twenty-five object fields, and exactly these when some object
    row was extracted; a line holds, in each column, nan where its dict has
    no such field or holds nan, a null (which pandas keeps as [None] or
    turns into nan, by the column) where the dict holds [None], and
    otherwise the value of the dict, so that an ego row is nan in the
    sixteen fields it lacks. *)
Theorem process_table_spec :
  ∀ data df,
    ObjectExtractor.process data = Ok df →
    ∃ objects,
      ObjectExtractor.extract_objects data = Ok objects ∧
      NoDup (ObjectExtractor.columns df) ∧
      ObjectExtractor.columns df ⊆ Spec.object_columns ∧
      (Exists (λ d, keys d = Spec.object_columns) objects →
       Spec.object_columns ⊆ ObjectExtractor.columns df) ∧
      Forall2 (λ d line,
                 keys line = ObjectExtractor.columns df ∧
                 (∀ c, c ∈ ObjectExtractor.columns df →
                       dict_lookup c line = Some (Extra.cell_of d c)) ∧
                 (∀ c, c ∈ ObjectExtractor.columns df → c ∉ keys d →
                       dict_lookup c line = Some ObjectExtractor.Nan))
              objects (ObjectExtractor.rows df).
Proof.
  intros data df (objects & Hobjects & [= <-])%bind_Ok_inv.
  exists objects. split_and!.
  - done.
  - apply NoDup_unique.
  - intros c (d & Hd & Hc)%elem_of_DataFrame_columns.
    pose proof (extract_objects_row_keys _ _ Hobjects) as Hkeys.
    rewrite list.Forall_forall in Hkeys.
    destruct (Hkeys d Hd) as [-> | [Hk | Hk]].
    + by apply elem_of_nil in Hc.
    + rewrite Hk in Hc.
      assert (Spec.ego_columns ⊆ Spec.object_columns) as Hsub by closed_elem.
      by apply Hsub.
    + by rewrite Hk in Hc.
  - intros (d & Hd & Hk)%list.Exists_exists c Hc.
    apply elem_of_DataFrame_columns. exists d. split; [done | by rewrite Hk].
  - unfold ObjectExtractor.DataFrame_of_dicts.
    cbn [ObjectExtractor.rows ObjectExtractor.columns].
    apply Forall2_fmap_r, Forall_Forall2_diag, list.Forall_forall. intros d _.
    split_and!.
    + unfold keys. rewrite <- list_fmap_compose. apply list_fmap_id.
    + intros c Hc.
      rewrite (dict_lookup_tabulated
                 (λ c, from_option ObjectExtractor.cell_of_value ObjectExtractor.Nan
                                   (dict_lookup c d))) by done.
      reflexivity.
    + intros c Hc Hd.
      rewrite (dict_lookup_tabulated
                 (λ c, from_option ObjectExtractor.cell_of_value ObjectExtractor.Nan
                                   (dict_lookup c d))) by done.
      by rewrite (dict_lookup_absent d c Hd).
Qed.

Lemma process_table_spec_witness :
  ∃ df,
    ObjectExtractor.process [Sample.record] = Ok df ∧
    ObjectExtractor.columns df ⊆ Spec.object_columns ∧
    length (ObjectExtractor.rows df) = 2%nat.
Proof.
  destruct (ObjectExtractor.process [Sample.record]) as [df|e] eqn:Hdf;
    [|vm_compute in Hdf; discriminate Hdf].
  exists df. split; [reflexivity|].
  destruct (process_table_spec [Sample.record] df Hdf)
    as (objects & Hobjects & _ & Hsub & _ & Hrows).
  split; [exact Hsub|].
  apply Forall2_length in Hrows. rewrite <- Hrows.
  vm_compute in Hobjects. injection Hobjects as <-. reflexivity.
Defined.

(** *** The constructor and the category column *)

Section constructor.
Import DatasetManager.

Lemma last_category_elem mapping label c :
  MetricsSpec.last_category mapping label = Some c → c ∈ mapping.*1.
Proof.
  induction mapping as [|[category labels] mapping IH]; cbn; [done|].
  destruct (MetricsSpec.last_category mapping label) as [c'|].
  - intros [= <-]. right. by apply IH.
  - destruct (decide _); [|done]. intros [= <-]. by left.
Qed.

Lemma map_to_category_range self label :
  map_to_category self label ∈ unclassified :: (category_mapping self).*1.
Proof.
  destruct label as [| |s|]; try (by left).
  rewrite map_to_category_last.
  destruct (MetricsSpec.last_category _ s) as [c|] eqn:Hc; [|by left].
  right. by eapply last_category_elem.
Qed.

Lemma at_col_insert_ne c c' v (r : gmap string cell) :
  c ≠ c' → at_col c (<[c' := v]> r) = at_col c r.
Proof. intros Hne. unfold at_col. by rewrite lookup_insert_ne. Qed.

Lemma apply_category_mapping_eq self :
  _apply_category_mapping self =
  if decide ("label" ∈ columns (data self)) then
    Ok {| data :=
            {| columns := if decide ("general_category" ∈ columns (data self))
                          then columns (data self)
                          else columns (data self) ++ ["general_category"];
               rows := (λ r, <["general_category" :=
                                 Str (map_to_category self (at_col "label" r))]> r)
                         <$> rows (data self) |};
          category_mapping := category_mapping self |}
  else Raise KeyError.
Proof.
  unfold _apply_category_mapping, getitem.
  destruct (decide _); [|done]. rewrite bind_Ok. unfold setitem. do 3 f_equal.
  rewrite <- list_fmap_compose.
  apply (zip_with_insert_fmap "general_category"
           (λ r, Str (map_to_category self (at_col "label" r)))).
Qed.

End constructor.

(** X10.  The constructor raises [KeyError] exactly when the frame has no
    [label] column.  Otherwise it stores the frame with one more column,
    [general_category] (overwritten if the file had one): the mapping, the
    number of rows and every other column are those of the file, and the
    category of each row is that of its label, which is "unclassified" or
    one of the category names of the mapping. *)
Theorem init_spec :
  ∀ csv mapping,
    ("label" ∉ DatasetManager.columns csv →
     DatasetManager.init csv mapping = Raise KeyError) ∧
    ("label" ∈ DatasetManager.columns csv →
     ∃ self,
       DatasetManager.init csv mapping = Ok self ∧
       DatasetManager.category_mapping self = mapping ∧
       length (DatasetManager.rows (DatasetManager.data self))
         = length (DatasetManager.rows csv) ∧
       (∀ c, c ≠ "general_category" →
             DatasetManager.getitem (DatasetManager.data self) c
               = DatasetManager.getitem csv c) ∧
       DatasetManager.getitem (DatasetManager.data self) "general_category"
         = Ok ((λ r, DatasetManager.Str
                       (DatasetManager.map_to_category self
                          (DatasetManager.at_col "label" r)))
                 <$> DatasetManager.rows csv) ∧
       ∀ r, DatasetManager.map_to_category self (DatasetManager.at_col "label" r)
              ∈ "unclassified" :: mapping.*1).
Proof.
  intros csv mapping. unfold DatasetManager.init. rewrite apply_category_mapping_eq.
  cbn [DatasetManager.data DatasetManager.category_mapping].
  split; intros Hl; [by rewrite decide_False|].
  rewrite decide_True by done. eexists. split; [reflexivity|].
  cbn [DatasetManager.data DatasetManager.category_mapping DatasetManager.rows].
  split_and!.
  - done.
  - apply length_fmap.
  - intros c Hc. unfold DatasetManager.getitem.
    cbn [DatasetManager.columns DatasetManager.rows].
    assert (c ∈ (if decide ("general_category" ∈ DatasetManager.columns csv)
                 then DatasetManager.columns csv
                 else DatasetManager.columns csv ++ ["general_category"])
            ↔ c ∈ DatasetManager.columns csv) as Hcols.
    { destruct (decide _); [done|].
      rewrite elem_of_app, list_elem_of_singleton. tauto. }
    destruct (decide (c ∈ DatasetManager.columns csv)) as [Hin|Hin].
    + rewrite decide_True by (by apply Hcols). f_equal.
      rewrite <- list_fmap_compose. apply list_fmap_ext. intros _ r _. cbn.
      unfold DatasetManager.at_col at 1. by rewrite lookup_insert_ne.
    + by rewrite decide_False by (by rewrite Hcols).
  - unfold DatasetManager.getitem. cbn [DatasetManager.columns DatasetManager.rows].
    rewrite decide_True.
    + f_equal. rewrite <- list_fmap_compose. apply list_fmap_ext. intros _ r _. cbn.
      unfold DatasetManager.at_col at 1. by rewrite lookup_insert_eq.
    + destruct (decide _); [done|]. apply elem_of_app. right. by left.
  - intros r.
    apply (map_to_category_range
             {| DatasetManager.data := csv; DatasetManager.category_mapping := mapping |}).
Qed.

Lemma init_spec_witness :
  DatasetManager.init
    {| DatasetManager.columns := ["status"]; DatasetManager.rows := [] |}
    MetricsSample.main_mapping = Raise KeyError ∧
  ∃ self, DatasetManager.init MetricsSample.csv MetricsSample.main_mapping = Ok self ∧
          length (DatasetManager.rows (DatasetManager.data self)) = 8%nat.
Proof.
  split.
  - apply (init_spec {| DatasetManager.columns := ["status"];
                        DatasetManager.rows := [] |} MetricsSample.main_mapping).
    closed_elem.
  - destruct (proj2 (init_spec MetricsSample.csv MetricsSample.main_mapping))
      as (self & Hinit & _ & Hlen & _); [closed_elem|].
    exists self. split; [exact Hinit | exact Hlen].
Defined.

(** X11.  Applying the category mapping again changes nothing: after one
    successful [_apply_category_mapping], a second one succeeds and leaves
    the state exactly as it is. *)
Theorem apply_category_mapping_idempotent :
  ∀ self self',
    DatasetManager._apply_category_mapping self = Ok self' →
    DatasetManager._apply_category_mapping self' = Ok self'.
Proof.
  intros self self'. rewrite !apply_category_mapping_eq.
  destruct (decide ("label" ∈ _)) as [Hl|]; [|done]. intros [= <-].
  cbn [DatasetManager.data DatasetManager.columns DatasetManager.rows
       DatasetManager.category_mapping].
  assert ("general_category" ∈
            (if decide ("general_category"
                        ∈ DatasetManager.columns (DatasetManager.data self))
             then DatasetManager.columns (DatasetManager.data self)
             else DatasetManager.columns (DatasetManager.data self)
                  ++ ["general_category"])) as Hg.
  { destruct (decide _); [done|]. apply elem_of_app. right. by left. }
  assert ("label" ∈
            (if decide ("general_category"
                        ∈ DatasetManager.columns (DatasetManager.data self))
             then DatasetManager.columns (DatasetManager.data self)
             else DatasetManager.columns (DatasetManager.data self)
                  ++ ["general_category"])) as Hl'.
  { destruct (decide _); [done|]. apply elem_of_app. by left. }
  rewrite (decide_True _ _ Hl'), (decide_True _ _ Hg). do 3 f_equal.
  rewrite <- list_fmap_compose. apply list_fmap_ext. intros _ r _. cbn.
  rewrite insert_insert_eq, at_col_insert_ne by done. reflexivity.
Qed.

Lemma apply_category_mapping_idempotent_witness :
  DatasetManager._apply_category_mapping MetricsSample.manager1
    = Ok MetricsSample.manager1.
Proof.
  apply (apply_category_mapping_idempotent MetricsSample.manager0).
  rewrite apply_category_mapping_eq. rewrite decide_True by closed_elem.
  unfold MetricsSample.manager1. do 3 f_equal.
Defined.

(** *** The rates of a category *)

Section rates.
Import DatasetManager.
Open Scope Qc_scope.

Lemma Qc_of_nat_nonneg n : 0 ≤ Qc_of_nat n.
Proof.
  unfold Qc_of_nat, Qc_of_Z, Qcle. cbn [this Q2Qc]. rewrite Qred_correct.
  unfold Qle. cbn. lia.
Qed.

Lemma Qc_half_nonneg x : 0 ≤ x → 0 ≤ x / 2.
Proof.
  intros Hx. apply Qcmult_nonneg_nonneg; [done|].
  apply Qclt_le_weak, Qcinv_pos. done.
Qed.

Lemma Qc_ratio_bounds x y : 0 ≤ x → 0 ≤ y → 0 < x + y → 0 ≤ x / (x + y) ∧ x / (x + y) ≤ 1.
Proof.
  intros Hx Hy Hpos. split.
  - apply Qcmult_nonneg_nonneg; [done|]. by apply Qclt_le_weak, Qcinv_pos.
  - apply (Qcmult_le_mono_pos_r _ _ (x + y) Hpos).
    rewrite (Qcmult_comm (x / (x + y))), Qcmult_div_r, Qcmult_1_l
      by (by apply Qc_pos_ne_0).
    rewrite <- (Qcplus_0_r x) at 1. by apply Qcplus_le_mono_l.
Qed.

Lemma metrics_of_bounds n_tp n_fp n_fn :
  (0 ≤ TPrate (MetricsSpec.metrics_of n_tp n_fp n_fn) ∧
   TPrate (MetricsSpec.metrics_of n_tp n_fp n_fn) ≤ 1) ∧
  (0 ≤ mAP (MetricsSpec.metrics_of n_tp n_fp n_fn) ∧
   mAP (MetricsSpec.metrics_of n_tp n_fp n_fn) ≤ 1).
Proof.
  unfold MetricsSpec.metrics_of. cbn [TPrate mAP].
  pose proof (Qc_half_nonneg _ (Qc_of_nat_nonneg n_tp)) as Htp.
  split; case_bool_decide as Hpos;
    first [ apply Qc_ratio_bounds; [done | apply Qc_of_nat_nonneg | done]
          | by split ].
Qed.

End rates.

(** X12.  Whatever the data, the two rates that
    [calculate_category_metrics] returns lie between 0 and 1. *)
Theorem rates_between_0_and_1 :
  ∀ self category m,
    DatasetManager.calculate_category_metrics self category = Ok m →
    (0 ≤ DatasetManager.TPrate m)%Qc ∧ (DatasetManager.TPrate m ≤ 1)%Qc ∧
    (0 ≤ DatasetManager.mAP m)%Qc ∧ (DatasetManager.mAP m ≤ 1)%Qc.
Proof.
  intros self category m. rewrite calculate_category_metrics_counts.
  repeat (destruct (decide _); [|done]). intros [= <-].
  pose proof (metrics_of_bounds
                (MetricsSpec.count_by self category "TP")
                (MetricsSpec.count_by self category "FP")
                (MetricsSpec.count_by self category "FN")). tauto.
Qed.

Lemma rates_between_0_and_1_witness :
  ∃ m,
    DatasetManager.calculate_category_metrics MetricsSample.manager1
      (DatasetManager.Str "car") = Ok m ∧
    (0 ≤ DatasetManager.TPrate m)%Qc ∧ (DatasetManager.TPrate m ≤ 1)%Qc.
Proof.
  destruct (calculate_category_metrics_total MetricsSample.manager1
              (DatasetManager.Str "car")) as [m Hm]; [closed_elem | closed_elem |].
  exists m. split; [exact Hm|].
  destruct (rates_between_0_and_1 _ _ _ Hm) as (H0 & H1 & _).
  split; [exact H0 | exact H1].
Defined.

(** X13.  A category that no row has (a category of the mapping without
    data, or a name that is no category at all) gets no error but the rates
    0 and 0. *)
Theorem category_without_rows_has_zero_rates :
  ∀ self category,
    "general_category" ∈ DatasetManager.columns (DatasetManager.data self) →
    "status" ∈ DatasetManager.columns (DatasetManager.data self) →
    (∀ r, r ∈ DatasetManager.rows (DatasetManager.data self) →
          DatasetManager.at_col "general_category" r ≠ category) →
    DatasetManager.calculate_category_metrics self category =
      Ok {| DatasetManager.TPrate := 0%Qc; DatasetManager.mAP := 0%Qc |}.
Proof.
  intros self category Hg Hs Hnone.
  rewrite calculate_category_metrics_counts, !decide_True by done.
  assert (∀ s, MetricsSpec.count_by self category s = 0%nat) as Hcount.
  { intros s. unfold MetricsSpec.count_by.
    induction (DatasetManager.rows (DatasetManager.data self)) as [|r l IH]; [done|].
    rewrite filter_cons, decide_False.
    - apply IH. intros r' Hr'. apply Hnone. by right.
    - intros [Hcat _]. apply (Hnone r); [by left|].
      destruct (DatasetManager.at_col "general_category" r), category;
        cbn in Hcat; try done; by apply bool_decide_eq_true in Hcat. }
  rewrite !Hcount. closed_eq.
Qed.

Lemma category_without_rows_has_zero_rates_witness :
  DatasetManager.calculate_category_metrics MetricsSample.manager1
    (DatasetManager.Str "pedestrian") =
  Ok {| DatasetManager.TPrate := 0%Qc; DatasetManager.mAP := 0%Qc |}.
Proof.
  apply category_without_rows_has_zero_rates; [closed_elem | closed_elem |].
  intros r Hr. unfold MetricsSample.manager1, MetricsSample.csv in Hr.
  cbn [DatasetManager.data DatasetManager.rows DatasetManager.setitem fmap list_fmap
       zip_with] in Hr.
  repeat (apply elem_of_cons in Hr as [->|Hr]; [vm_compute; discriminate|]).
  by apply elem_of_nil in Hr.
Defined.

(** *** Errors and empty results of the overall metrics *)

Section calculate_metrics_edges.
Import DatasetManager.

Lemma calculate_metrics_loop_unclassified self metrics categories :
  Forall (λ c, c = Str unclassified) categories →
  foldM (λ metrics category,
           if negb (cell_eq category (Str unclassified)) then
             m ← calculate_category_metrics self category;
             Ok (dict_set metrics category m)
           else Ok metrics)
        metrics categories = Ok metrics.
Proof.
  induction 1 as [|c categories -> _ IH]; [done|].
  cbn [foldM]. by rewrite (proj2 (cell_eq_Str _ _) eq_refl).
Qed.

Lemma calculate_metrics_loop_KeyError self metrics categories :
  (∀ c, calculate_category_metrics self c = Raise KeyError) →
  Exists (λ c, c ≠ Str unclassified) categories →
  foldM (λ metrics category,
           if negb (cell_eq category (Str unclassified)) then
             m ← calculate_category_metrics self category;
             Ok (dict_set metrics category m)
           else Ok metrics)
        metrics categories = Raise KeyError.
Proof.
  intros Hraise. induction 1 as [c categories Hc|c categories _ IH]; cbn [foldM].
  - apply cell_eq_false_Str in Hc. by rewrite Hc, Hraise.
  - destruct (cell_eq c (Str unclassified)); cbn [negb]; [by rewrite bind_Ok|].
    by rewrite Hraise.
Qed.

End calculate_metrics_edges.

(** X14.  [calculate_metrics] raises [KeyError] when the state has no
    [general_category] column, and when it has no [status] column while some
    row is classified.  When every row is "unclassified", or there is no row,
    it returns the empty dict, and does so even without a [status] column,
    which it then never reads. *)
Theorem calculate_metrics_edge_cases :
  ∀ self,
    ("general_category" ∉ DatasetManager.columns (DatasetManager.data self) →
     DatasetManager.calculate_metrics self = Raise KeyError) ∧
    ("general_category" ∈ DatasetManager.columns (DatasetManager.data self) →
     (∀ r, r ∈ DatasetManager.rows (DatasetManager.data self) →
           DatasetManager.at_col "general_category" r
             = DatasetManager.Str "unclassified") →
     DatasetManager.calculate_metrics self = Ok []) ∧
    ("general_category" ∈ DatasetManager.columns (DatasetManager.data self) →
     "status" ∉ DatasetManager.columns (DatasetManager.data self) →
     (∃ r, r ∈ DatasetManager.rows (DatasetManager.data self) ∧
           DatasetManager.at_col "general_category" r
             ≠ DatasetManager.Str "unclassified") →
     DatasetManager.calculate_metrics self = Raise KeyError).
Proof.
  intros self. unfold DatasetManager.calculate_metrics, DatasetManager.getitem.
  split_and!.
  - intros Hg. by rewrite decide_False.
  - intros Hg Hall. rewrite decide_True by done. rewrite bind_Ok.
    apply calculate_metrics_loop_unclassified, list.Forall_forall.
    intros c (r & -> & Hr)%elem_of_unique%list_elem_of_fmap. by apply Hall.
  - intros Hg Hs (r & Hr & Hc). rewrite decide_True by done. rewrite bind_Ok.
    apply calculate_metrics_loop_KeyError.
    + intros c. rewrite calculate_category_metrics_counts.
      by rewrite decide_True, decide_False.
    + apply list.Exists_exists.
      exists (DatasetManager.at_col "general_category" r). split; [|done].
      apply elem_of_unique, list_elem_of_fmap. by exists r.
Qed.

Lemma calculate_metrics_edge_cases_witness :
  DatasetManager.calculate_metrics
    {| DatasetManager.data :=
         {| DatasetManager.columns := ["general_category"];
            DatasetManager.rows :=
              [ {[ "general_category" := DatasetManager.Str "unclassified" ]} ] |};
       DatasetManager.category_mapping := [] |} = Ok [] ∧
  DatasetManager.calculate_metrics
    {| DatasetManager.data :=
         {| DatasetManager.columns := ["general_category"];
            DatasetManager.rows :=
              [ {[ "general_category" := DatasetManager.Str "car" ]} ] |};
       DatasetManager.category_mapping := [] |} = Raise KeyError ∧
  DatasetManager.calculate_metrics MetricsSample.manager0 = Raise KeyError.
Proof.
  split_and!.
  - apply (proj1 (proj2 (calculate_metrics_edge_cases _))); [closed_elem|].
    intros r Hr. cbn in Hr. apply list_elem_of_singleton in Hr as ->. reflexivity.
  - apply (proj2 (proj2 (calculate_metrics_edge_cases _)));
      [closed_elem | closed_elem |].
    eexists. split; [by left | vm_compute; discriminate].
  - apply (proj1 (calculate_metrics_edge_cases _)). closed_elem.
Defined.

(** *** Errors of the distance aggregations *)

Section aggregation.
Import DatasetManager.

Lemma aggregate_Ok m self bin_size :
  "distance_from_ego" ∈ columns (data self) →
  Forall (λ r, MetricsSpec.is_text (at_col "distance_from_ego" r) = false)
         (rows (data self)) →
  MetricsSpec.by_column m ∈ columns (data self) →
  MetricsSpec.aggregate m self bin_size =
  (MetricsSpec.with_bins self bin_size,
   Ok (MetricsSpec.table_of
         (MetricsSpec.kept_keys self bin_size (MetricsSpec.by_column m)))).
Proof.
  intros Hd Ht Hc. rewrite aggregate_eq, assign_distance_bin_eq, !decide_True by done.
  rewrite groupby_with_bins by (by destruct m). by rewrite decide_True.
Qed.

Lemma bin_cell_fmap bin_size (l : list (gmap string cell)) :
  MetricsSpec.bin_cell bin_size <$> l =
  (λ v, match v with
        | Num d => bin_of bin_size d
        | Bool x => bin_of bin_size (if x then 1 else 0)%Qc
        | _ => NaN
        end) <$> (at_col "distance_from_ego" <$> l).
Proof.
  rewrite <- list_fmap_compose. apply list_fmap_ext. intros _ r _.
  unfold MetricsSpec.bin_cell, MetricsSpec.distance_of, compose.
  by destruct (at_col "distance_from_ego" r).
Qed.

Lemma aggregate_result_unchanged m self self' bin_size :
  MetricsSpec.only_distance_bin_differs self self' →
  (MetricsSpec.aggregate m self' bin_size).2 = (MetricsSpec.aggregate m self bin_size).2.
Proof.
  intros Hd. pose proof Hd as (_ & Hcols & _).
  assert (MetricsSpec.by_column m ≠ "distance_bin") as Hby by (by destruct m).
  assert ("distance_from_ego" ≠ "distance_bin") as Hdist by done.
  pose proof (only_distance_bin_differs_at_col _ _ _ Hd Hdist) as Hdistance.
  pose proof (only_distance_bin_differs_at_col _ _ _ Hd Hby) as Hkey.
  rewrite !aggregate_result.
  assert (MetricsSpec.kept_keys self' bin_size (MetricsSpec.by_column m) =
          MetricsSpec.kept_keys self bin_size (MetricsSpec.by_column m)) as ->.
  { unfold MetricsSpec.kept_keys. by rewrite !bin_cell_fmap, Hdistance, Hkey. }
  assert (Forall (λ r, MetricsSpec.is_text (at_col "distance_from_ego" r) = false)
                 (rows (data self')) ↔
          Forall (λ r, MetricsSpec.is_text (at_col "distance_from_ego" r) = false)
                 (rows (data self))) as Htext.
  { rewrite <- !(Forall_fmap (at_col "distance_from_ego")
                             (λ v, MetricsSpec.is_text v = false)).
    by rewrite Hdistance. }
  rewrite (decide_ext _ _ _ _ (Hcols _ Hdist)).
  destruct (decide ("distance_from_ego" ∈ columns (data self))); [|done].
  rewrite (decide_ext _ _ _ _ Htext).
  destruct (decide (Forall _ (rows (data self)))); [|done].
  by rewrite (decide_ext _ _ _ _ (Hcols _ Hby)).
Qed.

Lemma with_bins_with_bins self bin_size1 bin_size2 :
  MetricsSpec.with_bins (MetricsSpec.with_bins self bin_size1) bin_size2 =
  MetricsSpec.with_bins self bin_size2.
Proof.
  unfold MetricsSpec.with_bins. cbn [data columns rows category_mapping].
  f_equal. f_equal.
  - destruct (decide ("distance_bin" ∈ columns (data self))) as [Hin|Hin].
    + by rewrite decide_True.
    + rewrite decide_True; [done|]. apply elem_of_app. right. by left.
  - rewrite <- list_fmap_compose. apply list_fmap_ext. intros _ r _.
    unfold compose. rewrite insert_insert_eq. f_equal.
    unfold MetricsSpec.bin_cell, MetricsSpec.distance_of.
    by rewrite at_col_insert_ne.
Qed.

Lemma run_calls_state calls self :
  MetricsSpec.run_calls calls self = self ∨
  ∃ bin_size, MetricsSpec.run_calls calls self = MetricsSpec.with_bins self bin_size.
Proof.
  revert self. induction calls as [|[m b] calls IH]; intros self; [by left|].
  change (MetricsSpec.run_calls ((m, b) :: calls) self)
    with (MetricsSpec.run_calls calls (MetricsSpec.aggregate m self b).1).
  destruct (aggregate_state m self b) as [-> | ->]; [apply IH|].
  right. destruct (IH (MetricsSpec.with_bins self b)) as [-> | [b' ->]].
  - by exists b.
  - exists b'. apply with_bins_with_bins.
Qed.

End aggregation.



(** X16.  An aggregation does not depend on the aggregations made before
    it: after any sequence of earlier calls, in any mode, with any bin sizes
    and whether they failed or not, a call returns the table or raises the
    exception that it would on the state before them, and when it returns a
    table it also leaves the same state, so that [distance_bin] holds the
    bins of the last bin size only. *)
Theorem aggregation_forgets_earlier_calls :
  ∀ calls m self bin_size,
    (MetricsSpec.aggregate m (MetricsSpec.run_calls calls self) bin_size).2
      = (MetricsSpec.aggregate m self bin_size).2 ∧
    (∀ g, (MetricsSpec.aggregate m self bin_size).2 = Ok g →
          MetricsSpec.aggregate m (MetricsSpec.run_calls calls self) bin_size
            = MetricsSpec.aggregate m self bin_size).
Proof.
  intros calls m self bin_size.
  pose proof (aggregate_result_unchanged m self _ bin_size
                (only_distance_bin_differs_run_calls calls self)) as Hresult.
  split; [exact Hresult|]. intros g Hg.
  apply injective_projections; [|exact Hresult].
  rewrite (aggregate_Ok_state _ _ _ g) by congruence.
  rewrite (aggregate_Ok_state _ _ _ g Hg).
  destruct (run_calls_state calls self) as [-> | [b ->]]; [done|].
  apply with_bins_with_bins.
Qed.

Lemma aggregation_forgets_earlier_calls_witness :
  MetricsSpec.aggregate MetricsSpec.by_category
    (MetricsSpec.run_calls
       [(MetricsSpec.by_status, Q2Qc 5); (MetricsSpec.by_category, Q2Qc 3)]
       MetricsSample.manager1)
    (Q2Qc 10)
  = MetricsSpec.aggregate MetricsSpec.by_category MetricsSample.manager1 (Q2Qc 10).
Proof.
  eapply (proj2 (aggregation_forgets_earlier_calls _ _ _ _)).
  rewrite aggregate_Ok; [reflexivity | closed_elem | closed_elem | closed_elem].
Defined.

(** *** The bin of a distance *)

(** X17.  With a positive bin size the bin that the floor division and the
    multiplication give a distance is a whole multiple of the bin size, is
    not above the distance, and is less than one bin size below it: the
    distance lies in the interval from its bin to the next one. *)
Theorem distance_lies_in_its_bin :
  ∀ bin_size d,
    (0 < bin_size)%Qc →
    ∃ k : Z,
      DatasetManager.floordiv_mul bin_size (DatasetManager.Num d)
        = Ok (DatasetManager.Num (Qc_of_Z k * bin_size)%Qc) ∧
      (Qc_of_Z k * bin_size ≤ d)%Qc ∧
      (d < Qc_of_Z k * bin_size + bin_size)%Qc.
Proof.
  intros bin_size d Hpos. pose proof (Qc_pos_ne_0 _ Hpos) as Hne.
  exists (Qfloor (d / bin_size)%Qc). split_and!.
  - cbn [DatasetManager.floordiv_mul]. unfold DatasetManager.bin_of.
    by rewrite decide_False.
  - rewrite <- (test_field d bin_size Hne) at 2.
    apply Qcmult_le_mono_pos_r; [done|].
    unfold Qcle, Qc_of_Z. cbn [this]. apply Qfloor_le.
  - rewrite <- (test_field d bin_size Hne) at 1.
    replace (Qc_of_Z (Qfloor (d / bin_size)%Qc) * bin_size + bin_size)%Qc
      with (Qc_of_Z (Qfloor (d / bin_size)%Qc + 1) * bin_size)%Qc
      by (rewrite Z2Qc_inj_add, Z2Qc_inj_1; ring).
    apply Qcmult_lt_mono_pos_r; [done|].
    unfold Qclt, Qc_of_Z. cbn [this]. apply Qlt_floor.
Qed.

Lemma distance_lies_in_its_bin_witness :
  ∃ k : Z,
    DatasetManager.floordiv_mul (Q2Qc 10) (DatasetManager.Num (Q2Qc 23.4))
      = Ok (DatasetManager.Num (Qc_of_Z k * Q2Qc 10)%Qc) ∧
    (Qc_of_Z k * Q2Qc 10 ≤ Q2Qc 23.4)%Qc ∧
    (Q2Qc 23.4 < Qc_of_Z k * Q2Qc 10 + Q2Qc 10)%Qc.
Proof.
  apply (distance_lies_in_its_bin (Q2Qc 10) (Q2Qc 23.4)). reflexivity.
Defined.

(** *** The shape and the total of the table *)

Section table.
Import DatasetManager.

#[local] Instance cell_le_transitive : Transitive cell_le.
Proof.
  intros [|x|s|a] [|y|t|b] [|z|u|c]; simpl; try done.
  - intros. by etrans.
  - intros. by etrans.
  - by destruct a, b, c.
Qed.

#[local] Instance cell_le_total : Total cell_le.
Proof.
  intros [|x|s|a] [|y|t|b]; simpl; auto.
  - apply (total Qcle).
  - apply (total String.le).
  - destruct a, b; simpl; auto.
Qed.

Lemma StronglySorted_sorted_keys (l : list cell) :
  StronglySorted cell_le (merge_sort cell_le (remove_dups l)).
Proof. apply StronglySorted_merge_sort; apply _. Qed.

Lemma aggregate_Ok_table m self bin_size g :
  (MetricsSpec.aggregate m self bin_size).2 = Ok g →
  g = MetricsSpec.table_of
        (MetricsSpec.kept_keys self bin_size (MetricsSpec.by_column m)).
Proof.
  rewrite aggregate_result. repeat (destruct (decide _)); congruence.
Qed.

Lemma bin_cell_number bin_size r :
  MetricsSpec.bin_cell bin_size r = NaN ∨ ∃ q, MetricsSpec.bin_cell bin_size r = Num q.
Proof.
  unfold MetricsSpec.bin_cell, bin_of.
  destruct (MetricsSpec.distance_of r); [|by left].
  destruct (decide (bin_size = 0%Qc)); [by left | right; eauto].
Qed.

Lemma numbers_of_cells (l : list cell) :
  Forall (λ c, ∃ q, c = Num q) l → ∃ qs, l = Num <$> qs.
Proof.
  induction 1 as [|c l [q ->] _ [qs ->]]; [by exists []|]. by exists (q :: qs).
Qed.

Lemma numbers_ascend (qs : list Qc) :
  StronglySorted cell_le (Num <$> qs) → NoDup (Num <$> qs) → StronglySorted Qclt qs.
Proof.
  induction qs as [|q qs IH]; [constructor|].
  cbn [fmap list_fmap]. intros Hs Hn.
  apply StronglySorted_inv in Hs as [Hs Hle]. apply list.NoDup_cons in Hn as [Hq Hn].
  constructor; [by apply IH|].
  apply list.Forall_forall. intros y Hy.
  rewrite list.Forall_forall in Hle.
  destruct (Qcle_lt_or_eq q y) as [Hlt | ->]; [|done|].
  - apply (Hle (Num y)). apply list_elem_of_fmap. by exists y.
  - destruct Hq. apply list_elem_of_fmap. by exists y.
Qed.






End table.

(** X18.  The table that an aggregation returns: its lines are keyed by
    numbers, the bins, in strictly ascending order; its columns are the
    values of the grouping column among the rows that have a bin, each once
    and in ascending order, so that the by-category table has a column for
    "unclassified" as soon as such a row has a distance; and the table is
    rectangular, with one line of counts per bin and one count per column. *)
Theorem aggregation_table_shape :
  ∀ m self bin_size g,
    (MetricsSpec.aggregate m self bin_size).2 = Ok g →
    (∃ bins : list Qc,
       DatasetManager.g_index g = DatasetManager.Num <$> bins ∧
       StronglySorted Qclt bins) ∧
    StronglySorted DatasetManager.cell_le (DatasetManager.g_columns g) ∧
    NoDup (DatasetManager.g_columns g) ∧
    (∀ s, s ∈ DatasetManager.g_columns g ↔
          s ≠ DatasetManager.NaN ∧
          ∃ r, r ∈ DatasetManager.rows (DatasetManager.data self) ∧
               MetricsSpec.bin_cell bin_size r ≠ DatasetManager.NaN ∧
               DatasetManager.at_col (MetricsSpec.by_column m) r = s) ∧
    length (DatasetManager.g_values g) = length (DatasetManager.g_index g) ∧
    Forall (λ line, length line = length (DatasetManager.g_columns g))
           (DatasetManager.g_values g).
Proof.
  intros m self bin_size g ->%aggregate_Ok_table.
  unfold MetricsSpec.table_of.
  cbn [DatasetManager.g_index DatasetManager.g_columns DatasetManager.g_values].
  split_and!.
  - destruct (numbers_of_cells
                (merge_sort DatasetManager.cell_le
                   (remove_dups
                      (MetricsSpec.kept_keys self bin_size (MetricsSpec.by_column m)).*1)))
      as [bins Hbins].
    { apply list.Forall_forall. intros k Hk.
      apply elem_of_sorted_keys, list_elem_of_fmap in Hk as ([k' s] & -> & Hk).
      apply elem_of_kept_keys in Hk as (Hnan & _ & r & _ & Hbin & _). cbn [fst].
      destruct (bin_cell_number bin_size r) as [Hr | [q Hr]]; [congruence|].
      exists q. congruence. }
    exists bins. split; [done|]. apply numbers_ascend; rewrite <- Hbins.
    + apply StronglySorted_sorted_keys.
    + apply NoDup_sorted_keys.
  - apply StronglySorted_sorted_keys.
  - apply NoDup_sorted_keys.
  - intros s. rewrite elem_of_sorted_keys, list_elem_of_fmap. split.
    + intros ([k s'] & -> & Hk). cbn [snd].
      apply elem_of_kept_keys in Hk as (Hnan & Hs & r & Hr & Hbin & Hkey).
      split; [done|]. exists r. split_and!; [done | congruence | done].
    + intros (Hs & r & Hr & Hbin & Hkey).
      exists (MetricsSpec.bin_cell bin_size r, s). split; [done|].
      apply elem_of_kept_keys. split_and!; [done | done |]. by exists r.
  - by rewrite length_fmap.
  - apply Forall_fmap, list.Forall_forall. intros i _. unfold compose.
    by rewrite length_fmap.
Qed.

Lemma aggregation_table_shape_witness :
  NoDup (DatasetManager.g_columns
           (MetricsSpec.table_of
              (MetricsSpec.kept_keys MetricsSample.manager1 (Q2Qc 10)
                 "general_category"))) ∧
  DatasetManager.Str "unclassified"
    ∈ DatasetManager.g_columns
        (MetricsSpec.table_of
           (MetricsSpec.kept_keys MetricsSample.manager1 (Q2Qc 10)
              "general_category")).
Proof.
  assert ((MetricsSpec.aggregate MetricsSpec.by_category MetricsSample.manager1
             (Q2Qc 10)).2
          = Ok (MetricsSpec.table_of
                  (MetricsSpec.kept_keys MetricsSample.manager1 (Q2Qc 10)
                     "general_category"))) as Hg.
  { rewrite aggregate_Ok; [reflexivity | closed_elem | closed_elem | closed_elem]. }
  destruct (aggregation_table_shape _ _ _ _ Hg) as (_ & _ & Hnodup & Hcols & _).
  split; [exact Hnodup|].
  apply Hcols. split; [discriminate|].
  exists (<["general_category" := DatasetManager.Str "unclassified"]>
            (MetricsSample.row "animal" "FP" (MetricsSample.num 7))).
  split_and!; [closed_elem | vm_compute; discriminate | reflexivity].
Defined.



(** *** From the folder to the table *)

Lemma process_records read_lines loads files :
  JSONLProcessor.process (Ok files) read_lines loads =
  (objects ← ObjectExtractor.extract_objects
               (concat (Extra.file_records read_lines loads <$> files));
   Ok (ObjectExtractor.DataFrame_of_dicts objects)).
Proof.
  unfold JSONLProcessor.process, JSONLProcessor.read_jsonl_files.
  by rewrite !bind_Ok, read_loop_records.
Qed.

Lemma extract_objects_concat_Raise (parts : list (list value)) :
  Exists (λ data, ∃ e, ObjectExtractor.extract_objects data = Raise e) parts →
  ∃ e, ObjectExtractor.extract_objects (concat parts) = Raise e.
Proof.
  induction 1 as [data parts [e He]|data parts _ [e IH]]; cbn [concat];
    rewrite extract_objects_app.
  - rewrite He. by exists e.
  - destruct (ObjectExtractor.extract_objects data) as [rows|e']; [|by exists e'].
    rewrite bind_Ok, IH. by exists e.
Qed.

Lemma extract_objects_concat_Ok (parts : list (list value)) :
  Forall (λ data, ∃ rows, ObjectExtractor.extract_objects data = Ok rows) parts →
  ∃ rows, ObjectExtractor.extract_objects (concat parts) = Ok rows.
Proof.
  induction 1 as [|data parts [rows Hrows] _ [rows' IH]]; cbn [concat].
  - by exists [].
  - rewrite extract_objects_app, Hrows, IH. by eexists.
Qed.

(** X20.  [ObjectProcessor.process] from the folder to the table.  What
    [os.listdir] raises is raised.  A listed name that contributes no record
    (another kind of file, a file that cannot be read or has a bad line)
    changes nothing: the result is the one of the folder without it.  The
    guard around each file does not cover the extraction: when the records
    of one file make [extract_objects] raise, the whole call raises and there
    is no table, whatever the other files hold; when the records of every
    file can be extracted, the call returns a table. *)
Theorem process_folder_spec :
  ∀ read_lines loads,
    (∀ e, JSONLProcessor.process (Raise e) read_lines loads = Raise e) ∧
    (∀ files file_name files',
       Extra.file_records read_lines loads file_name = [] →
       JSONLProcessor.process (Ok (files ++ file_name :: files')) read_lines loads
         = JSONLProcessor.process (Ok (files ++ files')) read_lines loads) ∧
    (∀ files,
       Exists (λ file_name,
                 ∃ e, ObjectExtractor.extract_objects
                        (Extra.file_records read_lines loads file_name) = Raise e)
              files →
       ∃ e, JSONLProcessor.process (Ok files) read_lines loads = Raise e) ∧
    (∀ files,
       Forall (λ file_name,
                 ∃ rows, ObjectExtractor.extract_objects
                           (Extra.file_records read_lines loads file_name) = Ok rows)
              files →
       ∃ df, JSONLProcessor.process (Ok files) read_lines loads = Ok df).
Proof.
  intros read_lines loads. split_and!.
  - done.
  - intros files file_name files' Hnone.
    by rewrite !process_records, !fmap_app, fmap_cons, !concat_app, Hnone.
  - intros files Hbad. rewrite process_records.
    destruct (extract_objects_concat_Raise
                (Extra.file_records read_lines loads <$> files)) as [e He].
    { apply list.Exists_fmap. by unfold compose. }
    rewrite He. by exists e.
  - intros files Hgood. rewrite process_records.
    destruct (extract_objects_concat_Ok
                (Extra.file_records read_lines loads <$> files)) as [rows Hrows].
    { apply Forall_fmap. by unfold compose. }
    rewrite Hrows. by eexists.
Qed.

Lemma process_folder_spec_witness :
  JSONLProcessor.process (Ok (["c.jsonl"] ++ "notes.txt" :: ["b.jsonl"]))
      ExtraSample.read_lines ExtraSample.loads
    = JSONLProcessor.process (Ok (["c.jsonl"] ++ ["b.jsonl"]))
        ExtraSample.read_lines ExtraSample.loads ∧
  (∃ e, JSONLProcessor.process (Ok ["notes.txt"; "a.jsonl"])
          ExtraSample.read_lines ExtraSample.loads = Raise e) ∧
  (∃ df, JSONLProcessor.process (Ok ["notes.txt"; "b.jsonl"; "c.jsonl"])
           ExtraSample.read_lines ExtraSample.loads = Ok df).
Proof.
  split_and!.
  - apply (proj1 (proj2 (process_folder_spec _ _))). reflexivity.
  - apply (proj1 (proj2 (proj2 (process_folder_spec _ _)))).
    apply Exists_cons_tl, Exists_cons_hd. exists AttributeError.
    vm_compute. reflexivity.
  - apply (proj2 (proj2 (proj2 (process_folder_spec _ _)))).
    repeat constructor; exists []; reflexivity.
Defined.
